(** * Talos v1alpha1 configuration: cluster accessors, endpoint and validation

    A shallow embedding of [pkg/config/types/v1alpha1/cluster_config.go]
    and of the validation contract exercised by
    [pkg/machinery/config/types/v1alpha1/v1alpha1_validation_test.go],
    together with the properties of the accessor facade, the endpoint
    value and the validator. *)

From Stdlib Require Import ZArith Lia Bool List Ascii String DecimalString.
From stdpp Require Import gmap strings.
Import ListNotations.

Local Open Scope string_scope.
Local Open Scope list_scope.
Local Open Scope Z_scope.

(** String concatenation computes under [simpl] in this development. *)
#[local] Arguments String.append !s1 s2 : simpl nomatch.

(** ** Go runtime: results and run-time panics *)

Module Go.

(** The two run-time panics the embedded code can raise. *)
Inductive panic : Type :=
| NilDereference
| IndexOutOfRange.

(** A Go computation either returns a value or panics. *)
Inductive go (A : Type) : Type :=
| Return (a : A)
| Panic (p : panic).
Arguments Return {A} a.
Arguments Panic {A} p.

Definition bind {A B : Type} (m : go A) (k : A -> go B) : go B :=
  match m with
  | Return a => k a
  | Panic p => Panic p
  end.

(** [p.f] on a pointer [p]: a nil pointer panics. *)
Definition deref {A : Type} (p : option A) : go A :=
  match p with
  | Some a => Return a
  | None => Panic NilDereference
  end.

(** [s[i]] on a slice. *)
Definition index {A : Type} (s : list A) (i : nat) : go A :=
  match nth_error s i with
  | Some a => Return a
  | None => Panic IndexOutOfRange
  end.

Definition returns {A : Type} (m : go A) : Prop := exists a, m = Return a.

Definition panics {A : Type} (m : go A) : Prop := exists p, m = Panic p.

End Go.

Export Go.

Declare Scope go_scope.
Notation "x <- m ;; k" := (Go.bind m (fun x => k))
  (at level 100, m at next level, right associativity) : go_scope.
Delimit Scope go_scope with go.
Local Open Scope go_scope.

(** ** Bytes and the [strings] package

    A Go string is a sequence of bytes; it is embedded as [string], whose
    characters are the 256 byte values.  Indices are Go [int]s, embedded
    as [Z], with [-1] for "not found" as in the library. *)

Module bytes.

Definition code (c : ascii) : Z := Z.of_N (N_of_ascii c).

(** [lo <= c && c <= hi] *)
Definition between (lo hi c : ascii) : bool :=
  (code lo <=? code c) && (code c <=? code hi).

Definition is_lower (c : ascii) : bool := between "a" "z" c.
Definition is_upper (c : ascii) : bool := between "A" "Z" c.
Definition is_digit (c : ascii) : bool := between "0" "9" c.
Definition is_alnum (c : ascii) : bool := is_lower c || is_upper c || is_digit c.

(** Membership of a byte in a [case 'x', 'y', ...] list. *)
Fixpoint one_of (cs : string) (c : ascii) : bool :=
  match cs with
  | EmptyString => false
  | String a cs' => Ascii.eqb c a || one_of cs' c
  end.

(** Every byte of [s] satisfies [p]. *)
Fixpoint all (p : ascii -> bool) (s : string) : bool :=
  match s with
  | EmptyString => true
  | String a s' => p a && all p s'
  end.

End bytes.

Module strings.

Import bytes.

(** [s[i:]] *)
Fixpoint drop (n : nat) (s : string) : string :=
  match n, s with
  | O, _ => s
  | S n', String _ s' => drop n' s'
  | S _, EmptyString => EmptyString
  end.

(** [s[:i]] *)
Fixpoint take (n : nat) (s : string) : string :=
  match n, s with
  | O, _ => EmptyString
  | S n', String a s' => String a (take n' s')
  | S _, EmptyString => EmptyString
  end.

Definition slice_from (s : string) (i : Z) : string := drop (Z.to_nat i) s.
Definition slice_to (s : string) (i : Z) : string := take (Z.to_nat i) s.
Definition len (s : string) : Z := Z.of_nat (String.length s).

(** [strings.HasPrefix] *)
Fixpoint HasPrefix (s prefix : string) {struct prefix} : bool :=
  match prefix, s with
  | EmptyString, _ => true
  | String a p', String b s' => Ascii.eqb a b && HasPrefix s' p'
  | String _ _, EmptyString => false
  end.

(** [strings.HasSuffix] *)
Definition HasSuffix (s suffix : string) : bool :=
  (len suffix <=? len s) &&
  String.eqb (slice_from s (len s - len suffix)) suffix.

(** [strings.IndexByte]: index of the first [c] in [s], or [-1]. *)
Fixpoint IndexByte (s : string) (c : ascii) : Z :=
  match s with
  | EmptyString => -1
  | String a s' =>
      if Ascii.eqb a c then 0
      else let i := IndexByte s' c in if i <? 0 then -1 else i + 1
  end.

(** [strings.LastIndexByte]: index of the last [c] in [s], or [-1]. *)
Fixpoint LastIndexByte (s : string) (c : ascii) : Z :=
  match s with
  | EmptyString => -1
  | String a s' =>
      let j := LastIndexByte s' c in
      if 0 <=? j then j + 1 else if Ascii.eqb a c then 0 else -1
  end.

(** [strings.Index]: index of the first instance of [substr] in [s]. *)
Fixpoint Index (s substr : string) : Z :=
  if HasPrefix s substr then 0
  else match s with
       | EmptyString => -1
       | String _ s' =>
           let i := Index s' substr in if i <? 0 then -1 else i + 1
       end.

(** [strings.Count] for a one-byte [substr]: the number of [c] in [s]. *)
Fixpoint CountByte (s : string) (c : ascii) : Z :=
  match s with
  | EmptyString => 0
  | String a s' => (if Ascii.eqb a c then 1 else 0) + CountByte s' c
  end.

(** [strings.Contains] for a one-byte [substr]. *)
Definition ContainsByte (s : string) (c : ascii) : bool := 0 <=? IndexByte s c.

(** [strings.ToLower] on the ASCII letters; the library maps the other
    runes through the Unicode tables, which the callers here never reach
    (a URL scheme holds ASCII letters, digits, [+], [-] and [.] only). *)
Definition lower_byte (c : ascii) : ascii :=
  if is_upper c then ascii_of_N (N_of_ascii c + 32) else c.

Fixpoint ToLower (s : string) : string :=
  match s with
  | EmptyString => EmptyString
  | String a s' => String (lower_byte a) (ToLower s')
  end.

(** The loop of [genSplit] for a one-byte separator and [n < 0]:
    [n] counts the separators still to cut at. *)
Fixpoint genSplit_loop (n : nat) (s : string) (sep : ascii) : list string :=
  match n with
  | O => [s]
  | S n' =>
      let m := IndexByte s sep in
      if m <? 0 then [s]
      else slice_to s m :: genSplit_loop n' (slice_from s (m + 1)) sep
  end.

(** [strings.Split(s, sep)] for a one-byte separator, which is what every
    call in the embedded code passes (the empty separator takes the
    library's separate [explode] path). *)
Definition Split (s : string) (sep : ascii) : list string :=
  genSplit_loop (Z.to_nat (CountByte s sep)) s sep.

End strings.

(** ** The [net/url] package: [Parse] and [URL.String]

    [Endpoint] delegates to these two functions of the Go standard
    library, so they are embedded along with the helpers they call,
    function by function. *)

Module url.

Import bytes strings.

Inductive encoding : Type :=
| encodePath
| encodePathSegment
| encodeHost
| encodeZone
| encodeUserPassword
| encodeQueryComponent
| encodeFragment.

Definition encoding_eqb (a b : encoding) : bool :=
  match a, b with
  | encodePath, encodePath
  | encodePathSegment, encodePathSegment
  | encodeHost, encodeHost
  | encodeZone, encodeZone
  | encodeUserPassword, encodeUserPassword
  | encodeQueryComponent, encodeQueryComponent
  | encodeFragment, encodeFragment => true
  | _, _ => false
  end.

(** The error values of the package: [EscapeError], [InvalidHostError],
    the plain [errors.New] messages, and
    [fmt.Errorf("invalid port %q after host", colonPort)]. *)
Inductive error : Type :=
| EscapeError (s : string)
| InvalidHostError (s : string)
| errorString (msg : string)
| invalidPort (colonPort : string).

Inductive result (A : Type) : Type :=
| Ok (a : A)
| Err (e : error).
Arguments Ok {A} a.
Arguments Err {A} e.

(** [Userinfo]: [User(username)] leaves [passwordSet] false,
    [UserPassword(username, password)] sets it. *)
Record Userinfo : Type := mkUserinfo {
  username : string;
  password : string;
  passwordSet : bool
}.

Record URL : Type := mkURL {
  Scheme : string;
  Opaque : string;
  User : option Userinfo;
  Host : string;
  Path : string;
  RawPath : string;
  ForceQuery : bool;
  RawQuery : string;
  Fragment : string
}.

Definition byte_of (v : Z) : ascii := ascii_of_N (Z.to_N v).

Definition ishex (c : ascii) : bool :=
  between "0" "9" c || between "a" "f" c || between "A" "F" c.

Definition unhex (c : ascii) : Z :=
  if between "0" "9" c then code c - code "0"
  else if between "a" "f" c then code c - code "a" + 10
  else if between "A" "F" c then code c - code "A" + 10
  else 0.

Definition is_host_mode (mode : encoding) : bool :=
  match mode with
  | encodeHost | encodeZone => true
  | _ => false
  end.

(** [shouldEscape]: whether byte [c] must be percent-encoded in the part
    of the URL that [mode] names.  Character 34 is the double quote. *)
Definition shouldEscape (c : ascii) (mode : encoding) : bool :=
  if is_alnum c then false
  else if is_host_mode mode
          && (one_of "!$&'()*+,;=:[]<>" c || Ascii.eqb c "034") then false
  else if one_of "-_.~" c then false
  else if one_of "$&+,/:;=?@" c then
    match mode with
    | encodePath => Ascii.eqb c "?"
    | encodePathSegment => one_of "/;,?" c
    | encodeUserPassword => one_of "@/?:" c
    | encodeQueryComponent => true
    | encodeFragment => false
    | encodeHost | encodeZone => true
    end
  else if encoding_eqb mode encodeFragment && one_of "!()*" c then false
  else true.

(** First loop of [unescape]: count the [%], check that they are
    well formed, and note a [+] in a query component. *)
Fixpoint unescape_scan (s : string) (mode : encoding) (n : Z) (hasPlus : bool)
  : result (Z * bool) :=
  match s with
  | EmptyString => Ok (n, hasPlus)
  | String c rest =>
      if Ascii.eqb c "%" then
        match rest with
        | String a (String b rest') =>
            if negb (ishex a) || negb (ishex b) then Err (EscapeError (take 3 s))
            else if encoding_eqb mode encodeHost && (unhex a <? 8)
                    && negb (String.eqb (take 3 s) "%25")
            then Err (EscapeError (take 3 s))
            else if encoding_eqb mode encodeZone
                    && (let v := byte_of (Z.lor (Z.shiftl (unhex a) 4) (unhex b)) in
                        negb (String.eqb (take 3 s) "%25")
                        && negb (Ascii.eqb v " ")
                        && shouldEscape v encodeHost)
            then Err (EscapeError (take 3 s))
            else unescape_scan rest' mode (n + 1) hasPlus
        | _ => Err (EscapeError (take 3 s))
        end
      else if Ascii.eqb c "+" then
        unescape_scan rest mode n (encoding_eqb mode encodeQueryComponent)
      else if is_host_mode mode && (code c <? 128) && shouldEscape c encodeHost
      then Err (InvalidHostError (String c EmptyString))
      else unescape_scan rest mode n hasPlus
  end.

(** Second loop of [unescape]: decode.  It runs only after the scan
    succeeded, so every [%] is followed by two hex digits. *)
Fixpoint unescape_decode (s : string) (mode : encoding) : string :=
  match s with
  | EmptyString => EmptyString
  | String c rest =>
      if Ascii.eqb c "%" then
        match rest with
        | String a (String b rest') =>
            String (byte_of (Z.lor (Z.shiftl (unhex a) 4) (unhex b)))
                   (unescape_decode rest' mode)
        | _ => String c rest
        end
      else if Ascii.eqb c "+" then
        String (if encoding_eqb mode encodeQueryComponent then " " else "+")
               (unescape_decode rest mode)
      else String c (unescape_decode rest mode)
  end.

Definition unescape (s : string) (mode : encoding) : result string :=
  match unescape_scan s mode 0 false with
  | Err e => Err e
  | Ok (n, hasPlus) =>
      if (n =? 0) && negb hasPlus then Ok s else Ok (unescape_decode s mode)
  end.

(** The bytes [unescape] passes through unchanged outside a query
    component: no [%], and in a host no ASCII byte that would need
    escaping. *)
Definition plain (mode : encoding) (c : ascii) : bool :=
  negb (Ascii.eqb c "%")
  && negb (is_host_mode mode && (code c <? 128) && shouldEscape c encodeHost).

Definition upperhex (v : Z) : ascii :=
  match String.get (Z.to_nat v) "0123456789ABCDEF" with
  | Some c => c
  | None => "0"
  end.

(** First loop of [escape]: [(spaceCount, hexCount)]. *)
Fixpoint escape_count (s : string) (mode : encoding) : Z * Z :=
  match s with
  | EmptyString => (0, 0)
  | String c rest =>
      let '(spaceCount, hexCount) := escape_count rest mode in
      if shouldEscape c mode then
        if Ascii.eqb c " " && encoding_eqb mode encodeQueryComponent
        then (spaceCount + 1, hexCount)
        else (spaceCount, hexCount + 1)
      else (spaceCount, hexCount)
  end.

Fixpoint escape_build (s : string) (mode : encoding) : string :=
  match s with
  | EmptyString => EmptyString
  | String c rest =>
      if Ascii.eqb c " " && encoding_eqb mode encodeQueryComponent then
        String "+" (escape_build rest mode)
      else if shouldEscape c mode then
        String "%" (String (upperhex (Z.shiftr (code c) 4))
                      (String (upperhex (Z.land (code c) 15))
                         (escape_build rest mode)))
      else String c (escape_build rest mode)
  end.

Definition escape (s : string) (mode : encoding) : string :=
  let '(spaceCount, hexCount) := escape_count s mode in
  if (spaceCount =? 0) && (hexCount =? 0) then s else escape_build s mode.

(** [getscheme]: the loop over [rawurl], [s] being [rawurl[i:]]. *)
Fixpoint getscheme_loop (rawurl s : string) (i : Z) : result (string * string) :=
  match s with
  | EmptyString => Ok (EmptyString, rawurl)
  | String c s' =>
      if is_lower c || is_upper c then getscheme_loop rawurl s' (i + 1)
      else if is_digit c || one_of "+-." c then
        if i =? 0 then Ok (EmptyString, rawurl)
        else getscheme_loop rawurl s' (i + 1)
      else if Ascii.eqb c ":" then
        if i =? 0 then Err (errorString "missing protocol scheme")
        else Ok (slice_to rawurl i, slice_from rawurl (i + 1))
      else Ok (EmptyString, rawurl)
  end.

Definition getscheme (rawurl : string) : result (string * string) :=
  getscheme_loop rawurl rawurl 0.

(** [split(s, sep, cutc)]: cut at the first [sep]; [cutc] drops it. *)
Definition split (s : string) (sep : ascii) (cutc : bool) : string * string :=
  let i := IndexByte s sep in
  if i <? 0 then (s, EmptyString)
  else if cutc then (slice_to s i, slice_from s (i + 1))
  else (slice_to s i, slice_from s i).

Fixpoint all_digits (s : string) : bool :=
  match s with
  | EmptyString => true
  | String b s' => is_digit b && all_digits s'
  end.

Definition validOptionalPort (port : string) : bool :=
  match port with
  | EmptyString => true
  | String c digits => Ascii.eqb c ":" && all_digits digits
  end.

Fixpoint validUserinfo (s : string) : bool :=
  match s with
  | EmptyString => true
  | String r s' =>
      (is_alnum r || one_of "-._:~!$&'()*+,;=%@" r) && validUserinfo s'
  end.

Fixpoint stringContainsCTLByte (s : string) : bool :=
  match s with
  | EmptyString => false
  | String b s' =>
      (code b <? code " ") || (code b =? 127) || stringContainsCTLByte s'
  end.

Definition parseHost (host : string) : result string :=
  if HasPrefix host "[" then
    let i := LastIndexByte host "]" in
    if i <? 0 then Err (errorString "missing ']' in host")
    else
      let colonPort := slice_from host (i + 1) in
      if negb (validOptionalPort colonPort)
      then Err (invalidPort colonPort)
      else
        let zone := Index (slice_to host i) "%25" in
        if 0 <=? zone then
          match unescape (slice_to host zone) encodeHost with
          | Err e => Err e
          | Ok host1 =>
              match unescape (slice_from (slice_to host i) zone) encodeZone with
              | Err e => Err e
              | Ok host2 =>
                  match unescape (slice_from host i) encodeHost with
                  | Err e => Err e
                  | Ok host3 => Ok (host1 +:+ host2 +:+ host3)
                  end
              end
          end
        else unescape host encodeHost
  else
    let i := LastIndexByte host ":" in
    if negb (i =? -1) && negb (validOptionalPort (slice_from host i))
    then Err (invalidPort (slice_from host i))
    else unescape host encodeHost.

Definition parseAuthority (authority : string)
  : result (option Userinfo * string) :=
  let i := LastIndexByte authority "@" in
  match (if i <? 0 then parseHost authority
         else parseHost (slice_from authority (i + 1))) with
  | Err e => Err e
  | Ok host =>
      if i <? 0 then Ok (None, host)
      else
        let userinfo := slice_to authority i in
        if negb (validUserinfo userinfo)
        then Err (errorString "net/url: invalid userinfo")
        else if negb (ContainsByte userinfo ":") then
          match unescape userinfo encodeUserPassword with
          | Err e => Err e
          | Ok userinfo' => Ok (Some (mkUserinfo userinfo' EmptyString false), host)
          end
        else
          let '(username, password) := split userinfo ":" true in
          match unescape username encodeUserPassword with
          | Err e => Err e
          | Ok username' =>
              match unescape password encodeUserPassword with
              | Err e => Err e
              | Ok password' => Ok (Some (mkUserinfo username' password' true), host)
              end
          end
  end.

(** [setPath]: the pair [(Path, RawPath)] it stores. *)
Definition setPath (p : string) : result (string * string) :=
  match unescape p encodePath with
  | Err e => Err e
  | Ok path =>
      if String.eqb p (escape path encodePath) then Ok (path, EmptyString)
      else Ok (path, p)
  end.

Definition parse (rawurl : string) (viaRequest : bool) : result URL :=
  if stringContainsCTLByte rawurl
  then Err (errorString "net/url: invalid control character in URL")
  else if String.eqb rawurl EmptyString && viaRequest
  then Err (errorString "empty url")
  else if String.eqb rawurl "*"
  then Ok (mkURL "" "" None "" "*" "" false "" "")
  else
    match getscheme rawurl with
    | Err e => Err e
    | Ok (scheme0, rest0) =>
        let scheme := ToLower scheme0 in
        let '(rest1, forceQuery, rawQuery) :=
          if HasSuffix rest0 "?" && (CountByte rest0 "?" =? 1)
          then (slice_to rest0 (len rest0 - 1), true, EmptyString)
          else let '(r, q) := split rest0 "?" true in (r, false, q) in
        if negb (HasPrefix rest1 "/") && negb (String.eqb scheme EmptyString)
        then Ok (mkURL scheme rest1 None "" "" "" forceQuery rawQuery "")
        else if negb (HasPrefix rest1 "/") && viaRequest
        then Err (errorString "invalid URI for request")
        else if negb (HasPrefix rest1 "/")
                && (let colon := IndexByte rest1 ":" in
                    let slash := IndexByte rest1 "/" in
                    (0 <=? colon) && ((slash <? 0) || (colon <? slash)))
        then Err (errorString "first path segment in URL cannot contain colon")
        else
          let authority_step :=
            if (negb (String.eqb scheme EmptyString)
                || (negb viaRequest && negb (HasPrefix rest1 "///")))
               && HasPrefix rest1 "//"
            then
              let '(authority, rest2) := split (slice_from rest1 2) "/" false in
              match parseAuthority authority with
              | Err e => Err e
              | Ok (user, host) => Ok (user, host, rest2)
              end
            else Ok (None, EmptyString, rest1) in
          match authority_step with
          | Err e => Err e
          | Ok (user, host, rest2) =>
              match setPath rest2 with
              | Err e => Err e
              | Ok (path, rawPath) =>
                  Ok (mkURL scheme "" user host path rawPath forceQuery rawQuery "")
              end
          end
    end.

(** The [url.Error] that [Parse] wraps a failure in. *)
Record Error : Type := mkError { Op : string; ErrURL : string; ErrErr : error }.

Definition with_Fragment (u : URL) (frag : string) : URL :=
  mkURL (Scheme u) (Opaque u) (User u) (Host u) (Path u) (RawPath u)
        (ForceQuery u) (RawQuery u) frag.

(** [url.Parse] *)
Definition Parse (rawurl : string) : URL + Error :=
  let '(u, frag) := split rawurl "#" true in
  match parse u false with
  | Err e => inr (mkError "parse" u e)
  | Ok url =>
      if String.eqb frag EmptyString then inl url
      else match unescape frag encodeFragment with
           | Err e => inr (mkError "parse" rawurl e)
           | Ok f => inl (with_Fragment url f)
           end
  end.

Fixpoint validEncodedPath (s : string) : bool :=
  match s with
  | EmptyString => true
  | String c s' =>
      (one_of "!$&'()*+,;=:@[]%" c || negb (shouldEscape c encodePath))
      && validEncodedPath s'
  end.

Definition EscapedPath (u : URL) : string :=
  let raw_ok :=
    if negb (String.eqb (RawPath u) EmptyString) && validEncodedPath (RawPath u)
    then match unescape (RawPath u) encodePath with
         | Ok p => String.eqb p (Path u)
         | Err _ => false
         end
    else false in
  if raw_ok then RawPath u
  else if String.eqb (Path u) "*" then "*"
  else escape (Path u) encodePath.

(** [Userinfo.String] on a non-nil receiver. *)
Definition Userinfo_String (ui : Userinfo) : string :=
  let s := escape (username ui) encodeUserPassword in
  if passwordSet ui then s +:+ ":" +:+ escape (password ui) encodeUserPassword
  else s.

Definition is_Some_b {A : Type} (o : option A) : bool :=
  match o with Some _ => true | None => false end.

(** [URL.String] on a non-nil receiver; [buf] is the builder. *)
Definition URL_String (u : URL) : string :=
  let buf :=
    if negb (String.eqb (Scheme u) EmptyString) then Scheme u +:+ ":"
    else EmptyString in
  let buf :=
    if negb (String.eqb (Opaque u) EmptyString) then buf +:+ Opaque u
    else
      let buf :=
        if negb (String.eqb (Scheme u) EmptyString)
           || negb (String.eqb (Host u) EmptyString) || is_Some_b (User u)
        then
          let buf :=
            if negb (String.eqb (Host u) EmptyString)
               || negb (String.eqb (Path u) EmptyString) || is_Some_b (User u)
            then buf +:+ "//" else buf in
          let buf :=
            match User u with
            | Some ui => buf +:+ Userinfo_String ui +:+ "@"
            | None => buf
            end in
          if negb (String.eqb (Host u) EmptyString)
          then buf +:+ escape (Host u) encodeHost else buf
        else buf in
      let path := EscapedPath u in
      let buf :=
        if negb (String.eqb path EmptyString)
           && negb (HasPrefix path "/")
           && negb (String.eqb (Host u) EmptyString)
        then buf +:+ "/" else buf in
      let buf :=
        if len buf =? 0 then
          let i := IndexByte path ":" in
          if (-1 <? i) && (IndexByte (slice_to path i) "/" =? -1)
          then buf +:+ "./" else buf
        else buf in
      buf +:+ path in
  let buf :=
    if ForceQuery u || negb (String.eqb (RawQuery u) EmptyString)
    then buf +:+ "?" +:+ RawQuery u else buf in
  if negb (String.eqb (Fragment u) EmptyString)
  then buf +:+ "#" +:+ escape (Fragment u) encodeFragment
  else buf.

(** [splitHostPort] and [URL.Hostname] *)
Definition splitHostPort (hostport : string) : string * string :=
  let colon := LastIndexByte hostport ":" in
  let '(host, port) :=
    if negb (colon =? -1) && validOptionalPort (slice_from hostport colon)
    then (slice_to hostport colon, slice_from hostport (colon + 1))
    else (hostport, EmptyString) in
  if HasPrefix host "[" && HasSuffix host "]"
  then (slice_to (slice_from host 1) (len host - 2), port)
  else (host, port).

Definition Hostname (u : URL) : string := fst (splitHostPort (Host u)).

End url.

(** ** [pkg/config/types/v1alpha1/cluster_config.go]

    A pointer [*T] is an [option T] ([None] is nil), a slice is a list, a
    Go [int] is a [Z], and a [map[string]string] is a [gmap].  Each struct
    has a module of its own, since Go keeps fields and methods of
    different types apart ([ClusterConfig.CNI] is a method,
    [ClusterNetworkConfig.CNI] a field). *)

Module x509.

(** Modelled from the spec: the certificate and key pair of
    [pkg/crypto/x509], whose declaration is not among the sources. *)
Record PEMEncodedCertificateAndKey : Type := mkPEM {
  Crt : list Byte.byte;
  Key : list Byte.byte
}.

End x509.

Module Endpoint.

(** [type Endpoint struct { *url.URL }] *)
Record t : Type := mk { URL : option url.URL }.

(** What [UnmarshalYAML] can fail with: the error of the [unmarshal]
    callback, of type [E], or the one of [url.Parse]. *)
Inductive error (E : Type) : Type :=
| UnmarshalError (err : E)
| ParseError (err : url.Error).
Arguments UnmarshalError {E} err.
Arguments ParseError {E} err.

(** [UnmarshalYAML]: [unmarshal] is the outcome of decoding the node into
    the local string [endpoint]; the result is the receiver afterwards
    and the returned error ([None] is nil). *)
Definition UnmarshalYAML {E : Type} (e : t) (unmarshal : string + E)
  : t * option (error E) :=
  match unmarshal with
  | inr err => (e, Some (UnmarshalError err))
  | inl endpoint =>
      match url.Parse endpoint with
      | inr err => (e, Some (ParseError err))
      | inl u => (mk (Some u), None)
      end
  end.

(** [MarshalYAML]: [e.URL.String()]; the returned error is always nil. *)
Definition MarshalYAML (e : t) : go string :=
  u <- deref (URL e) ;;
  Return (url.URL_String u).

End Endpoint.

Module ControlPlaneConfig.

(** [LocalAPIServerPort] is a Go [int]; the code compares it with 0 and
    returns it, and does no arithmetic on it. *)
Record t : Type := mk {
  Version : string;
  Endpoint : option Endpoint.t;
  LocalAPIServerPort : Z
}.

End ControlPlaneConfig.

Module APIServerConfig.

Record t : Type := mk {
  Image : string;
  ExtraArgs : gmap string string;
  CertSANs : list string
}.

(** [&APIServerConfig{}] *)
Definition zero : t := mk EmptyString ∅ [].

End APIServerConfig.

Module ControllerManagerConfig.

Record t : Type := mk {
  Image : string;
  ExtraArgs : gmap string string
}.

End ControllerManagerConfig.

Module SchedulerConfig.

Record t : Type := mk {
  Image : string;
  ExtraArgs : gmap string string
}.

End SchedulerConfig.

Module EtcdConfig.

Record t : Type := mk {
  ContainerImage : string;
  RootCA : option x509.PEMEncodedCertificateAndKey
}.

Definition Image (e : t) : go string := Return (ContainerImage e).

Definition CA (e : t) : go (option x509.PEMEncodedCertificateAndKey) :=
  Return (RootCA e).

End EtcdConfig.

Module ClusterNetworkConfig.

Record t : Type := mk {
  CNI : string;
  DNSDomain : string;
  PodSubnet : list string;
  ServiceSubnet : list string
}.

End ClusterNetworkConfig.

Module ClusterConfig.

Record t : Type := mk {
  ControlPlane : option ControlPlaneConfig.t;
  ClusterName : string;
  ClusterNetwork : option ClusterNetworkConfig.t;
  BootstrapToken : string;
  CertificateKey : string;
  ClusterAESCBCEncryptionSecret : string;
  ClusterCA : option x509.PEMEncodedCertificateAndKey;
  APIServer : option APIServerConfig.t;
  ControllerManager : option ControllerManagerConfig.t;
  Scheduler : option SchedulerConfig.t;
  EtcdConfig : option EtcdConfig.t
}.

(** [c.APIServer = a] *)
Definition set_APIServer (c : t) (a : option APIServerConfig.t) : t :=
  mk (ControlPlane c) (ClusterName c) (ClusterNetwork c) (BootstrapToken c)
     (CertificateKey c) (ClusterAESCBCEncryptionSecret c) (ClusterCA c)
     a (ControllerManager c) (Scheduler c) (EtcdConfig c).

(** [a.CertSANs = sans] *)
Definition set_CertSANs (a : APIServerConfig.t) (sans : list string)
  : APIServerConfig.t :=
  APIServerConfig.mk (APIServerConfig.Image a) (APIServerConfig.ExtraArgs a) sans.

Definition is_nil {A : Type} (p : option A) : bool :=
  match p with Some _ => false | None => true end.

(** The methods take the struct their receiver points to. *)

Definition Version (c : t) : go string :=
  cp <- deref (ControlPlane c) ;;
  Return (ControlPlaneConfig.Version cp).

Definition Endpoint (c : t) : go (option url.URL) :=
  cp <- deref (ControlPlane c) ;;
  e <- deref (ControlPlaneConfig.Endpoint cp) ;;
  Return (Endpoint.URL e).

Definition LocalAPIServerPort (c : t) : go Z :=
  cp <- deref (ControlPlane c) ;;
  if ControlPlaneConfig.LocalAPIServerPort cp =? 0 then Return 6443
  else
    cp' <- deref (ControlPlane c) ;;
    Return (ControlPlaneConfig.LocalAPIServerPort cp').

Definition CertSANs (c : t) : go (list string) :=
  a <- deref (APIServer c) ;;
  Return (APIServerConfig.CertSANs a).

(** [SetCertSANs] returns the struct as the call leaves it. *)
Definition SetCertSANs (c : t) (sans : list string) : go t :=
  let c1 :=
    if is_nil (APIServer c) then set_APIServer c (Some APIServerConfig.zero)
    else c in
  a <- deref (APIServer c1) ;;
  Return (set_APIServer c1
            (Some (set_CertSANs a (APIServerConfig.CertSANs a ++ sans)))).

Definition CA (c : t) : go (option x509.PEMEncodedCertificateAndKey) :=
  Return (ClusterCA c).

Definition AESCBCEncryptionSecret (c : t) : go string :=
  Return (ClusterAESCBCEncryptionSecret c).

Definition Etcd (c : t) : go (option EtcdConfig.t) := Return (EtcdConfig c).

Definition Token (c : t) : go t := Return c.

Definition ID (c : t) : go string :=
  let parts := strings.Split (BootstrapToken c) "." in
  if negb (Z.of_nat (length parts) =? 2) then Return EmptyString
  else index parts 0.

Definition Secret (c : t) : go string :=
  let parts := strings.Split (BootstrapToken c) "." in
  if negb (Z.of_nat (length parts) =? 2) then Return EmptyString
  else index parts 1.

Definition Network (c : t) : go t := Return c.

Section Defaults.

(** [constants.DefaultCNI], [constants.DefaultPodCIDR] and
    [constants.DefaultServiceCIDR]: the package that fixes them is not
    among the sources. *)
Variables DefaultCNI DefaultPodCIDR DefaultServiceCIDR : string.

(** In each [switch], the nil case falls through into the body of the
    next one without evaluating its condition. *)

Definition CNI (c : t) : go string :=
  if is_nil (ClusterNetwork c) then Return DefaultCNI
  else
    n <- deref (ClusterNetwork c) ;;
    if String.eqb (ClusterNetworkConfig.CNI n) EmptyString then Return DefaultCNI
    else
      n' <- deref (ClusterNetwork c) ;;
      Return (ClusterNetworkConfig.CNI n').

Definition PodCIDR (c : t) : go string :=
  if is_nil (ClusterNetwork c) then Return DefaultPodCIDR
  else
    n <- deref (ClusterNetwork c) ;;
    if Z.of_nat (length (ClusterNetworkConfig.PodSubnet n)) =? 0
    then Return DefaultPodCIDR
    else
      n' <- deref (ClusterNetwork c) ;;
      index (ClusterNetworkConfig.PodSubnet n') 0.

Definition ServiceCIDR (c : t) : go string :=
  if is_nil (ClusterNetwork c) then Return DefaultServiceCIDR
  else
    n <- deref (ClusterNetwork c) ;;
    if Z.of_nat (length (ClusterNetworkConfig.ServiceSubnet n)) =? 0
    then Return DefaultServiceCIDR
    else
      n' <- deref (ClusterNetwork c) ;;
      index (ClusterNetworkConfig.ServiceSubnet n') 0.

End Defaults.

(** The zero value of the struct: every pointer nil, every string empty. *)
Definition zero : t := mk None "" None "" "" "" None None None None None.

End ClusterConfig.

(** ** The validator of [pkg/machinery/config/types/v1alpha1]

    The sources hold the test of [Config.Validate], not the method: the
    structs are the ones the test builds, [runtimeMode] is the test's own
    type, and the validator is modelled from the specification. *)

Module machinery.

(** [config.RuntimeMode]: the interface the validator consumes. *)
Class RuntimeMode (M : Type) : Type := {
  String_ : M -> string;
  RequiresInstall : M -> bool
}.

(** The test's [runtimeMode] and its two methods;
    [fmt.Sprintf] with [%v] prints a bool as [true] or [false]. *)
Record runtimeMode : Type := mk_runtimeMode { requiresInstall : bool }.

#[export] Instance runtimeMode_RuntimeMode : RuntimeMode runtimeMode := {|
  String_ m :=
    "runtimeMode(" +:+ (if requiresInstall m then "true" else "false") +:+ ")";
  RequiresInstall m := requiresInstall m
|}.

Module InstallConfig.
Record t : Type := mk { InstallDisk : string }.
End InstallConfig.

Module MachineConfig.
Record t : Type := mk {
  MachineType : string;
  MachineInstall : option InstallConfig.t
}.
End MachineConfig.

Module ExternalCloudProviderConfig.
Record t : Type := mk {
  ExternalEnabled : bool;
  ExternalManifests : list string
}.
End ExternalCloudProviderConfig.

Module ClusterConfig.
Record t : Type := mk {
  ControlPlane : option ControlPlaneConfig.t;
  ExternalCloudProviderConfig : option ExternalCloudProviderConfig.t
}.
End ClusterConfig.

Module Config.
Record t : Type := mk {
  ConfigVersion : string;
  MachineConfig : option MachineConfig.t;
  ClusterConfig : option ClusterConfig.t
}.
End Config.

(** Modelled from the spec: the options of [config.ValidationOption],
    a package that is not among the sources; the surface is
    [{local, strict}], set by the two options the test passes. *)
Record ValidationOptions : Type := mkOptions { Local : bool; Strict : bool }.

Definition WithLocal (o : ValidationOptions) : ValidationOptions :=
  mkOptions true (Strict o).

Definition WithStrict (o : ValidationOptions) : ValidationOptions :=
  mkOptions (Local o) true.

Definition NewValidationOptions
  (options : list (ValidationOptions -> ValidationOptions)) : ValidationOptions :=
  fold_left (fun o f => f o) options (mkOptions false false).

Definition quote : string := String "034" EmptyString.
Definition nl : string := String "010" EmptyString.
Definition tab : string := String "009" EmptyString.

(** Modelled from the spec: the violation record, severity and message,
    that the rules of the missing [Config.Validate] produce. *)
Inductive severity : Type := Warning | Failure.

Record Violation : Type := mkViolation { sev : severity; message : string }.

Definition warning (msg : string) : Violation := mkViolation Warning msg.
Definition failure (msg : string) : Violation := mkViolation Failure msg.

Definition is_warning (v : Violation) : bool :=
  match sev v with Warning => true | Failure => false end.

Definition warnings_of (vs : list Violation) : list string :=
  map message (List.filter is_warning vs).

Definition errors_of (vs : list Violation) : list string :=
  map message (List.filter (fun v => negb (is_warning v)) vs).

(** Modelled from the spec: the aggregated error that the missing
    [Config.Validate] returns, the messages in order; no message, no
    error. *)
Record AggregatedError : Type := mkAggregated { Errors : list string }.

Definition ErrorOrNil (msgs : list string) : option AggregatedError :=
  match msgs with
  | [] => None
  | _ :: _ => Some (mkAggregated msgs)
  end.

Definition messages (e : option AggregatedError) : list string :=
  match e with
  | Some a => Errors a
  | None => []
  end.

(** Modelled from the spec: the rendering of the aggregated error, whose
    type is not among the sources: [N error(s) occurred:] and one
    [\t* message] line each, closed by a blank line. *)
Definition Error (e : AggregatedError) : string :=
  let n := length (Errors e) in
  NilEmpty.string_of_uint (Nat.to_uint n)
  +:+ (if Nat.eqb n 1 then " error occurred:" else " errors occurred:")
  +:+ String.concat EmptyString
        (map (fun m => nl +:+ tab +:+ "* " +:+ m) (Errors e))
  +:+ nl +:+ nl.

(** Modelled from the spec: rule 2 of the missing [Config.Validate], the
    machine type. *)
Definition rule_machine_type (mc : MachineConfig.t) : list Violation :=
  if String.eqb (MachineConfig.MachineType mc) EmptyString
  then [warning "machine type is empty"]
  else [].

Definition install_missing (mc : MachineConfig.t) : bool :=
  match MachineConfig.MachineInstall mc with
  | None => true
  | Some i => String.eqb (InstallConfig.InstallDisk i) EmptyString
  end.

Definition install_required_message `{RuntimeMode M} (mode : M) : string :=
  "install instructions are required in " +:+ quote +:+ String_ mode
  +:+ quote +:+ " mode".

(** Modelled from the spec: rule 3 of the missing [Config.Validate], the
    install requirement. *)
Definition rule_install `{RuntimeMode M} (mode : M) (mc : MachineConfig.t)
  : list Violation :=
  if RequiresInstall mode && install_missing mc
  then [failure (install_required_message mode)]
  else [].

(** Modelled from the spec: the manifest check of the missing
    [Config.Validate], an absolute URL with a non-blank hostname. *)
Definition absolute_with_hostname (manifest : string) : bool :=
  match url.Parse manifest with
  | inl u =>
      negb (String.eqb (url.Scheme u) EmptyString)
      && negb (String.eqb (url.Hostname u) EmptyString)
  | inr _ => false
  end.

Definition invalid_manifest_message (manifest : string) : string :=
  "invalid external cloud provider manifest url " +:+ quote +:+ manifest
  +:+ quote +:+ ": hostname must not be blank".

(** The enabled flag and the manifests; both are unset when the struct
    (or the cluster configuration holding it) is absent. *)
Definition external_enabled (doc : Config.t) : bool :=
  match Config.ClusterConfig doc with
  | Some c =>
      match ClusterConfig.ExternalCloudProviderConfig c with
      | Some e => ExternalCloudProviderConfig.ExternalEnabled e
      | None => false
      end
  | None => false
  end.

Definition external_manifests (doc : Config.t) : list string :=
  match Config.ClusterConfig doc with
  | Some c =>
      match ClusterConfig.ExternalCloudProviderConfig c with
      | Some e => ExternalCloudProviderConfig.ExternalManifests e
      | None => []
      end
  | None => []
  end.

(** Modelled from the spec: rule 4 of the missing [Config.Validate], the
    external cloud provider; it stops at the first offending manifest. *)
Definition rule_external_cloud_provider (doc : Config.t) : list Violation :=
  if negb (external_enabled doc) then
    match external_manifests doc with
    | [] => []
    | _ :: _ =>
        [failure "external cloud provider is disabled, but manifests are provided"]
    end
  else
    match List.find (fun m => negb (absolute_with_hostname m))
                    (external_manifests doc) with
    | Some m => [failure (invalid_manifest_message m)]
    | None => []
    end.

Section Validator.

Context `{RuntimeMode M}.

(** Rule 5 of the spec, the additional structural rules, which it does
    not detail: they follow the same pattern, a document to violations. *)
Variable structural_rules : Config.t -> list Violation.

(** Modelled from the spec: the violations that rules 2 to 5 of the
    missing [Config.Validate] find, in rule-evaluation order. *)
Definition violations (doc : Config.t) (mode : M) (mc : MachineConfig.t)
  : list Violation :=
  rule_machine_type mc ++ rule_install mode mc
  ++ rule_external_cloud_provider doc ++ structural_rules doc.

(** Modelled from the spec: [Config.Validate], of which the sources hold
    the test only.  Rule 1 is fatal; strict mode promotes each warning
    into the aggregated error, after the errors. *)
Definition Validate (doc : Config.t) (mode : M) (opts : ValidationOptions)
  : list string * option AggregatedError :=
  match Config.MachineConfig doc with
  | None => ([], ErrorOrNil ["machine instructions are required"])
  | Some mc =>
      let vs := violations doc mode mc in
      if Strict opts
      then ([], ErrorOrNil (errors_of vs
                            ++ map (fun w => "warning: " +:+ w) (warnings_of vs)))
      else (warnings_of vs, ErrorOrNil (errors_of vs))
  end.

End Validator.

End machinery.

(** ** Plain absolute URLs

    The strings [scheme://host[:port][/path][?query][#fragment]] on which
    the round trip of [Endpoint] is stated, given by their parts. *)

Module absolute_url.

Import bytes strings.

Record parts : Type := mkParts {
  scheme : string;
  host : string;
  port : option string;
  path : string;
  query : option string;
  fragment : option string
}.

Definition opt (sep : string) (o : option string) : string :=
  match o with
  | Some x => sep +:+ x
  | None => EmptyString
  end.

(** The string the parts spell. *)
Definition render (p : parts) : string :=
  scheme p +:+ "://" +:+ host p +:+ opt ":" (port p) +:+ path p
  +:+ opt "?" (query p) +:+ opt "#" (fragment p).

(** The same with the scheme in lower case. *)
Definition canonical (p : parts) : string :=
  render (mkParts (ToLower (scheme p)) (host p) (port p) (path p)
                  (query p) (fragment p)).

(** The authority [host[:port]] as one string. *)
Definition hostport (p : parts) : string := host p +:+ opt ":" (port p).

(** What follows the scheme's colon, up to the query. *)
Definition hier_part (p : parts) : string := "//" +:+ hostport p +:+ path p.

(** The URL up to its fragment. *)
Definition before_fragment (p : parts) : string :=
  scheme p +:+ String ":" (hier_part p +:+ opt "?" (query p)).

Definition nonempty (s : string) : bool := negb (String.eqb s EmptyString).

(** The bytes of a scheme after its first letter. *)
Definition scheme_tail (c : ascii) : bool :=
  is_lower c || is_upper c || is_digit c || one_of "+-." c.

(** The bytes of a host name. *)
Definition host_byte (c : ascii) : bool := is_alnum c || one_of "-." c.

(** The bytes of a path: the unreserved characters and [/]. *)
Definition path_byte (c : ascii) : bool := is_alnum c || one_of "-_.~/" c.

(** The bytes of a URL before its fragment: no [#], no control byte. *)
Definition url_byte (c : ascii) : bool :=
  negb (Ascii.eqb c "#") && negb ((code c <? 32) || (code c =? 127)).

(** The bytes of a fragment: unreserved, reserved or one of [!()*]. *)
Definition fragment_byte (c : ascii) : bool :=
  is_alnum c || one_of "-_.~$&+,/:;=?@!()*" c.

(** A letter, then letters, digits, [+], [-] and [.]. *)
Definition scheme_ok (s : string) : bool :=
  match s with
  | EmptyString => false
  | String c s' => (is_lower c || is_upper c) && all scheme_tail s'
  end.

(** Letters, digits, [-] and [.]; at least one. *)
Definition host_ok (s : string) : bool := nonempty s && all host_byte s.

Definition port_ok (o : option string) : bool :=
  match o with
  | Some d => all is_digit d
  | None => true
  end.

(** Empty, or a [/] followed by unreserved characters and [/]. *)
Definition path_ok (s : string) : bool :=
  match s with
  | EmptyString => true
  | String c s' => Ascii.eqb c "/" && all path_byte s'
  end.

(** Any bytes but [#] and the control bytes. *)
Definition query_ok (o : option string) : bool :=
  match o with
  | Some q => all url_byte q
  | None => true
  end.

(** At least one byte, each a fragment byte. *)
Definition fragment_ok (o : option string) : bool :=
  match o with
  | Some f => nonempty f && all fragment_byte f
  | None => true
  end.

Definition well_formed (p : parts) : bool :=
  scheme_ok (scheme p) && host_ok (host p) && port_ok (port p)
  && path_ok (path p) && query_ok (query p) && fragment_ok (fragment p).

End absolute_url.

(** ** The table of [TestValidate] *)

Module TestValidate.

Import machinery.

(** [url.Parse("https://localhost:6443/")], which the test requires to
    succeed. *)
Definition endpointURL : url.URL :=
  url.mkURL "https" "" None "localhost:6443" "/" "" false "" "".

Record test : Type := mkTest {
  name : string;
  config : Config.t;
  requiresInstall : bool;
  strict : bool;
  expectedWarnings : list string;
  expectedError : string
}.

(** The [ClusterConfig] every case but the first starts from. *)
Definition cluster (ecp : option ExternalCloudProviderConfig.t) : ClusterConfig.t :=
  ClusterConfig.mk
    (Some (ControlPlaneConfig.mk "" (Some (Endpoint.mk (Some endpointURL))) 0))
    ecp.

Definition join (install : option InstallConfig.t) : MachineConfig.t :=
  MachineConfig.mk "join" install.

Definition one_error (msg : string) : string :=
  "1 error occurred:" +:+ nl +:+ tab +:+ "* " +:+ msg +:+ nl +:+ nl.

(** Structural rules that find nothing. *)
Definition no_rules : Config.t -> list Violation := fun _ => [].

Definition manifests12 : list string :=
  ["https://www.example.com/manifest1.yaml";
   "https://www.example.com/manifest2.yaml"].

Definition tests : list test := [
  mkTest "NoMachine"
    (Config.mk "v1alpha1" None None)
    false false [] (one_error "machine instructions are required");
  mkTest "NoMachineType"
    (Config.mk "v1alpha1" (Some (MachineConfig.mk "" None)) (Some (cluster None)))
    false false ["machine type is empty"] "";
  mkTest "NoMachineTypeStrict"
    (Config.mk "v1alpha1" (Some (MachineConfig.mk "" None)) (Some (cluster None)))
    false true [] (one_error "warning: machine type is empty");
  mkTest "NoMachineInstall"
    (Config.mk "v1alpha1" (Some (join None)) (Some (cluster None)))
    false false [] "";
  mkTest "NoMachineInstallRequired"
    (Config.mk "v1alpha1" (Some (join None)) (Some (cluster None)))
    true false []
    (one_error ("install instructions are required in " +:+ quote
                +:+ "runtimeMode(true)" +:+ quote +:+ " mode"));
  mkTest "MachineInstallDisk"
    (Config.mk "v1alpha1"
       (Some (join (Some (InstallConfig.mk "/dev/vda")))) (Some (cluster None)))
    true false [] "";
  mkTest "ExternalCloudProviderEnabled"
    (Config.mk "v1alpha1" (Some (join None))
       (Some (cluster (Some (ExternalCloudProviderConfig.mk true manifests12)))))
    false false [] "";
  mkTest "ExternalCloudProviderEnabledNoManifests"
    (Config.mk "v1alpha1" (Some (join None))
       (Some (cluster (Some (ExternalCloudProviderConfig.mk true [])))))
    false false [] "";
  mkTest "ExternalCloudProviderDisabled"
    (Config.mk "v1alpha1" (Some (join None))
       (Some (cluster (Some (ExternalCloudProviderConfig.mk false [])))))
    false false [] "";
  mkTest "ExternalCloudProviderExtraManifests"
    (Config.mk "v1alpha1" (Some (join None))
       (Some (cluster (Some (ExternalCloudProviderConfig.mk false manifests12)))))
    false false []
    (one_error "external cloud provider is disabled, but manifests are provided");
  mkTest "ExternalCloudProviderInvalidManifests"
    (Config.mk "v1alpha1" (Some (join None))
       (Some (cluster (Some (ExternalCloudProviderConfig.mk true ["/manifest.yaml"])))))
    false false []
    (one_error ("invalid external cloud provider manifest url " +:+ quote
                +:+ "/manifest.yaml" +:+ quote +:+ ": hostname must not be blank"))
].

Fixpoint strings_eqb (a b : list string) : bool :=
  match a, b with
  | [], [] => true
  | x :: a', y :: b' => String.eqb x y && strings_eqb a' b'
  | _, _ => false
  end.

(** The body of [t.Run]: the options are [WithLocal()] and, for a strict
    case, [WithStrict()]; the warnings must equal the expected ones, and
    the error must be nil or render as the expected string. *)
Definition run (structural_rules : Config.t -> list Violation) (t : test) : bool :=
  let opts := [WithLocal] ++ (if strict t then [WithStrict] else []) in
  let '(warnings, errors) :=
    Validate structural_rules (config t) (mk_runtimeMode (requiresInstall t))
             (NewValidationOptions opts) in
  strings_eqb (expectedWarnings t) warnings
  && match errors with
     | None => String.eqb (expectedError t) ""
     | Some e =>
         negb (String.eqb (expectedError t) "")
         && String.eqb (Error e) (expectedError t)
     end.

End TestValidate.

(** * Properties *)

(** ** Bytes and strings *)

Section StringFacts.

Import bytes strings.

Lemma append_assoc (a b c : string) : (a +:+ b) +:+ c = a +:+ (b +:+ c).
Proof. induction a as [|x a IH]; simpl; [reflexivity | now rewrite IH]. Qed.

Lemma append_nil_r (a : string) : a +:+ EmptyString = a.
Proof. induction a as [|x a IH]; simpl; [reflexivity | now rewrite IH]. Qed.

Lemma len_nonneg (s : string) : 0 <= len s.
Proof. unfold len. lia. Qed.

Lemma len_cons (a : ascii) (s : string) : len (String a s) = len s + 1.
Proof. unfold len. simpl String.length. lia. Qed.

Lemma len_append (a b : string) : len (a +:+ b) = len a + len b.
Proof.
  induction a as [|x a IH]; simpl.
  - unfold len; simpl; lia.
  - rewrite !len_cons, IH. lia.
Qed.

Lemma take_append (a b : string) : take (String.length a) (a +:+ b) = a.
Proof. induction a as [|x a IH]; simpl; [now destruct b | now rewrite IH]. Qed.

Lemma drop_append (a b : string) : drop (String.length a) (a +:+ b) = b.
Proof. induction a as [|x a IH]; simpl; [reflexivity | exact IH]. Qed.

Lemma slice_to_append (a b : string) : slice_to (a +:+ b) (len a) = a.
Proof. unfold slice_to, len. rewrite Nat2Z.id. apply take_append. Qed.

Lemma slice_from_append (a b : string) : slice_from (a +:+ b) (len a) = b.
Proof. unfold slice_from, len. rewrite Nat2Z.id. apply drop_append. Qed.

Lemma slice_from_append_cons (a b : string) (c : ascii) :
  slice_from (a +:+ String c b) (len a + 1) = b.
Proof.
  replace (len a + 1) with (len (a +:+ String c EmptyString)).
  - replace (a +:+ String c b) with ((a +:+ String c EmptyString) +:+ b).
    + apply slice_from_append.
    + now rewrite append_assoc.
  - rewrite len_append, len_cons. unfold len; simpl; lia.
Qed.

Lemma CountByte_nonneg (s : string) (c : ascii) : 0 <= CountByte s c.
Proof. induction s as [|a s IH]; simpl; [lia | destruct (Ascii.eqb a c); lia]. Qed.

Lemma CountByte_append (a b : string) (c : ascii) :
  CountByte (a +:+ b) c = CountByte a c + CountByte b c.
Proof. induction a as [|x a IH]; simpl; [reflexivity | rewrite IH; lia]. Qed.

Lemma IndexByte_range (s : string) (c : ascii) :
  IndexByte s c = -1 \/ 0 <= IndexByte s c < len s.
Proof.
  induction s as [|a s IH]; simpl; [now left|].
  rewrite len_cons. pose proof (len_nonneg s).
  destruct (Ascii.eqb a c); [right; lia|].
  destruct IH as [-> | IH]; simpl; [now left|].
  destruct (IndexByte s c <? 0) eqn:E; [apply Z.ltb_lt in E; lia|].
  right; lia.
Qed.

(** [IndexByte] finds nothing exactly when [CountByte] counts nothing. *)
Lemma IndexByte_absent (s : string) (c : ascii) :
  IndexByte s c = -1 <-> CountByte s c = 0.
Proof.
  induction s as [|a s IH]; simpl; [tauto|].
  pose proof (CountByte_nonneg s c).
  destruct (Ascii.eqb a c).
  - split; lia.
  - destruct (IndexByte_range s c) as [E | E].
    + rewrite E; simpl. rewrite E in IH. split; intros _; [|reflexivity].
      rewrite Z.add_0_l. now apply IH.
    + destruct (IndexByte s c <? 0) eqn:L; [apply Z.ltb_lt in L; lia|].
      split; intros Hx; [lia|]. rewrite Z.add_0_l in Hx. apply IH in Hx. lia.
Qed.

(** The first [c] of [a ++ c :: b] is right after [a] when [a] has none. *)
Lemma IndexByte_first (a b : string) (c : ascii) :
  CountByte a c = 0 -> IndexByte (a +:+ String c b) c = len a.
Proof.
  induction a as [|x a IH]; simpl; intros Hc.
  - now rewrite Ascii.eqb_refl.
  - pose proof (CountByte_nonneg a c). pose proof (len_nonneg a).
    destruct (Ascii.eqb x c); [lia|].
    rewrite IH by lia. rewrite len_cons.
    destruct (len a <? 0) eqn:L; [apply Z.ltb_lt in L; lia | reflexivity].
Qed.

(** A found index cuts the string around its first [c]. *)
Lemma IndexByte_cut (s : string) (c : ascii) :
  0 <= IndexByte s c ->
  s = slice_to s (IndexByte s c) +:+ String c (slice_from s (IndexByte s c + 1))
  /\ CountByte (slice_to s (IndexByte s c)) c = 0.
Proof.
  induction s as [|a s IH]; simpl; [lia|].
  destruct (Ascii.eqb a c) eqn:E.
  - intros _. apply Ascii.eqb_eq in E. subst a. now split.
  - destruct (IndexByte_range s c) as [R | R].
    + rewrite R. simpl. lia.
    + destruct (IndexByte s c <? 0) eqn:L; [apply Z.ltb_lt in L; lia|].
      intros _. destruct (IH ltac:(lia)) as [IH1 IH2].
      unfold slice_to, slice_from in *.
      replace (Z.to_nat (IndexByte s c + 1)) with (S (Z.to_nat (IndexByte s c))) by lia.
      replace (Z.to_nat (IndexByte s c + 1 + 1))
        with (S (Z.to_nat (IndexByte s c + 1))) by lia.
      simpl. rewrite E. split; [now rewrite <- IH1 | lia].
Qed.

Lemma genSplit_loop_length (n : nat) : forall (s : string) (c : ascii),
  CountByte s c = Z.of_nat n -> length (genSplit_loop n s c) = S n.
Proof.
  induction n as [|n IH]; intros s c Hn; [reflexivity|].
  cbn [genSplit_loop].
  destruct (IndexByte_range s c) as [R | R].
  - apply IndexByte_absent in R. lia.
  - destruct (IndexByte s c <? 0) eqn:L; [apply Z.ltb_lt in L; lia|].
    cbn [length]. f_equal. apply IH.
    destruct (IndexByte_cut s c ltac:(lia)) as [Hs H0].
    rewrite Hs in Hn. rewrite CountByte_append in Hn. simpl in Hn.
    rewrite Ascii.eqb_refl in Hn. lia.
Qed.

(** [Split] returns one more part than there are separators. *)
Lemma Split_length (s : string) (c : ascii) :
  Z.of_nat (length (Split s c)) = CountByte s c + 1.
Proof.
  unfold Split. pose proof (CountByte_nonneg s c).
  rewrite genSplit_loop_length; lia.
Qed.

(** A string with exactly one separator splits into what is before it
    and what is after it. *)
Lemma Split_two (a b : string) (c : ascii) :
  CountByte a c = 0 -> CountByte b c = 0 ->
  Split (a +:+ String c b) c = [a; b].
Proof.
  intros Ha Hb. unfold Split.
  rewrite CountByte_append. simpl. rewrite Ascii.eqb_refl, Ha, Hb. simpl.
  rewrite (IndexByte_first a b c Ha). pose proof (len_nonneg a).
  destruct (len a <? 0) eqn:L; [apply Z.ltb_lt in L; lia|].
  now rewrite slice_to_append, slice_from_append_cons.
Qed.

End StringFacts.

(** ** The accessor facade of [ClusterConfig] *)

Section Accessors.

Import ClusterConfig.

Lemma returns_Return {A : Type} (a : A) : returns (Return a).
Proof. now exists a. Qed.

Lemma panic_not_returns {A : Type} (p : panic) : ~ returns (@Panic A p).
Proof. intros [a Ha]. discriminate Ha. Qed.

(** A slice of length two holds both of its elements. *)
Lemma index_two {A : Type} (l : list A) :
  length l = 2%nat ->
  exists a b, l = [a; b] /\ index l 0 = Return a /\ index l 1 = Return b.
Proof.
  destruct l as [|a [|b [|x l]]]; try discriminate.
  intros _. now exists a, b.
Qed.

Lemma ID_cases (c : ClusterConfig.t) :
  let parts := strings.Split (BootstrapToken c) "." in
  (length parts = 2%nat -> ID c = Return (nth 0 parts ""))
  /\ (length parts <> 2%nat -> ID c = Return "").
Proof.
  intros parts. unfold ID. fold parts. split; intros Hlen.
  - rewrite Hlen. simpl.
    destruct (index_two parts Hlen) as (a & b & -> & Ha & _). exact Ha.
  - destruct (Z.of_nat (length parts) =? 2) eqn:E; [|reflexivity].
    apply Z.eqb_eq in E. lia.
Qed.

Lemma Secret_cases (c : ClusterConfig.t) :
  let parts := strings.Split (BootstrapToken c) "." in
  (length parts = 2%nat -> Secret c = Return (nth 1 parts ""))
  /\ (length parts <> 2%nat -> Secret c = Return "").
Proof.
  intros parts. unfold Secret. fold parts. split; intros Hlen.
  - rewrite Hlen. simpl.
    destruct (index_two parts Hlen) as (a & b & -> & _ & Hb). exact Hb.
  - destruct (Z.of_nat (length parts) =? 2) eqn:E; [|reflexivity].
    apply Z.eqb_eq in E. lia.
Qed.

Lemma ID_returns (c : ClusterConfig.t) : returns (ID c).
Proof.
  destruct (ID_cases c) as [H2 Hn].
  destruct (Nat.eq_dec (length (strings.Split (BootstrapToken c) ".")) 2%nat)
    as [E | E].
  - rewrite (H2 E). apply returns_Return.
  - rewrite (Hn E). apply returns_Return.
Qed.

Lemma Secret_returns (c : ClusterConfig.t) : returns (Secret c).
Proof.
  destruct (Secret_cases c) as [H2 Hn].
  destruct (Nat.eq_dec (length (strings.Split (BootstrapToken c) ".")) 2%nat)
    as [E | E].
  - rewrite (H2 E). apply returns_Return.
  - rewrite (Hn E). apply returns_Return.
Qed.

Variables DefaultCNI DefaultPodCIDR DefaultServiceCIDR : string.

Lemma CNI_value (c : ClusterConfig.t) :
  CNI DefaultCNI c =
  Return (match ClusterNetwork c with
          | Some n =>
              if String.eqb (ClusterNetworkConfig.CNI n) "" then DefaultCNI
              else ClusterNetworkConfig.CNI n
          | None => DefaultCNI
          end).
Proof.
  unfold CNI. destruct (ClusterNetwork c) as [n|]; simpl; [|reflexivity].
  now destruct (String.eqb (ClusterNetworkConfig.CNI n) "").
Qed.

Lemma PodCIDR_value (c : ClusterConfig.t) :
  PodCIDR DefaultPodCIDR c =
  Return (match ClusterNetwork c with
          | Some n => hd DefaultPodCIDR (ClusterNetworkConfig.PodSubnet n)
          | None => DefaultPodCIDR
          end).
Proof.
  unfold PodCIDR. destruct (ClusterNetwork c) as [n|]; simpl; [|reflexivity].
  now destruct (ClusterNetworkConfig.PodSubnet n).
Qed.

Lemma ServiceCIDR_value (c : ClusterConfig.t) :
  ServiceCIDR DefaultServiceCIDR c =
  Return (match ClusterNetwork c with
          | Some n => hd DefaultServiceCIDR (ClusterNetworkConfig.ServiceSubnet n)
          | None => DefaultServiceCIDR
          end).
Proof.
  unfold ServiceCIDR. destruct (ClusterNetwork c) as [n|]; simpl; [|reflexivity].
  now destruct (ClusterNetworkConfig.ServiceSubnet n).
Qed.

End Accessors.

(** C5, as stated, fails: on a [ClusterConfig] whose [ControlPlane] is
    nil, [Version] dereferences the nil pointer and panics instead of
    returning a value. *)
Lemma C5_Version_panics_on_nil_ControlPlane :
  ClusterConfig.ControlPlane ClusterConfig.zero = None
  /\ ClusterConfig.Version ClusterConfig.zero = Panic NilDereference
  /\ panics (ClusterConfig.Version ClusterConfig.zero)
  /\ ~ returns (ClusterConfig.Version ClusterConfig.zero).
Proof.
  split; [reflexivity|]. split; [reflexivity|].
  split; [now exists NilDereference | apply panic_not_returns].
Qed.

(** C5, amended: [CA], [AESCBCEncryptionSecret], [ID], [Secret], [CNI],
    [PodCIDR] and [ServiceCIDR] return a value on every [ClusterConfig],
    whatever pointers are nil; [Version] and [LocalAPIServerPort] return
    one whenever [ControlPlane] is non-nil, [Endpoint] whenever
    [ControlPlane] and its [Endpoint] are non-nil, and [CertSANs]
    whenever [APIServer] is non-nil. *)
Theorem C5_accessors_return (dcni dpod dsvc : string) (c : ClusterConfig.t) :
  returns (ClusterConfig.CA c)
  /\ returns (ClusterConfig.AESCBCEncryptionSecret c)
  /\ returns (ClusterConfig.ID c)
  /\ returns (ClusterConfig.Secret c)
  /\ returns (ClusterConfig.CNI dcni c)
  /\ returns (ClusterConfig.PodCIDR dpod c)
  /\ returns (ClusterConfig.ServiceCIDR dsvc c)
  /\ (ClusterConfig.ControlPlane c <> None ->
      returns (ClusterConfig.Version c)
      /\ returns (ClusterConfig.LocalAPIServerPort c))
  /\ (forall cp e,
        ClusterConfig.ControlPlane c = Some cp ->
        ControlPlaneConfig.Endpoint cp = Some e ->
        returns (ClusterConfig.Endpoint c))
  /\ (ClusterConfig.APIServer c <> None -> returns (ClusterConfig.CertSANs c)).
Proof.
  repeat match goal with |- _ /\ _ => split end.
  - apply returns_Return.
  - apply returns_Return.
  - apply ID_returns.
  - apply Secret_returns.
  - rewrite CNI_value. apply returns_Return.
  - rewrite PodCIDR_value. apply returns_Return.
  - rewrite ServiceCIDR_value. apply returns_Return.
  - unfold ClusterConfig.Version, ClusterConfig.LocalAPIServerPort.
    destruct (ClusterConfig.ControlPlane c) as [cp|]; [intros _ | congruence].
    simpl. split; [apply returns_Return|].
    destruct (ControlPlaneConfig.LocalAPIServerPort cp =? 0);
      apply returns_Return.
  - intros cp e Hcp He. unfold ClusterConfig.Endpoint.
    rewrite Hcp. simpl. rewrite He. apply returns_Return.
  - unfold ClusterConfig.CertSANs.
    destruct (ClusterConfig.APIServer c); [intros _ | congruence].
    apply returns_Return.
Qed.

(** The amended C5 at a document with a control plane, an endpoint and an
    API server: all four guarded accessors return. *)
Lemma C5_accessors_return_witness :
  let e := Endpoint.mk None in
  let cp := ControlPlaneConfig.mk "v1.17.0" (Some e) 0 in
  let c := ClusterConfig.mk (Some cp) "" None "" "" "" None
             (Some APIServerConfig.zero) None None None in
  returns (ClusterConfig.Version c)
  /\ returns (ClusterConfig.LocalAPIServerPort c)
  /\ returns (ClusterConfig.Endpoint c)
  /\ returns (ClusterConfig.CertSANs c).
Proof.
  intros e cp c.
  pose proof (C5_accessors_return "" "" "" c)
    as (_ & _ & _ & _ & _ & _ & _ & Hcp & Hep & Hsans).
  destruct Hcp as [Hv Hp]; [discriminate|].
  repeat split; [exact Hv | exact Hp | | apply Hsans; discriminate].
  apply (Hep cp e); reflexivity.
Defined.

(** C6: when splitting [BootstrapToken] on [.] yields exactly two parts,
    [ID] is the first and [Secret] the second; otherwise both are the
    empty string.  Two parts arise exactly from one dot: a token
    [a.b] with dot-free [a] and [b] gives [a] and [b], and a token whose
    number of dots is not one gives the empty strings; so
    [abc123.def456] gives [abc123] and [def456], while [malformed] and
    [a.b.c] give empty strings. *)
Theorem C6_bootstrap_token (c : ClusterConfig.t) :
  let token := ClusterConfig.BootstrapToken c in
  let parts := strings.Split token "." in
  (length parts = 2%nat ->
     ClusterConfig.ID c = Return (nth 0 parts "")
     /\ ClusterConfig.Secret c = Return (nth 1 parts ""))
  /\ (length parts <> 2%nat ->
     ClusterConfig.ID c = Return "" /\ ClusterConfig.Secret c = Return "")
  /\ (forall a b,
        strings.CountByte a "." = 0 -> strings.CountByte b "." = 0 ->
        token = a +:+ "." +:+ b ->
        ClusterConfig.ID c = Return a /\ ClusterConfig.Secret c = Return b)
  /\ (strings.CountByte token "." <> 1 ->
      ClusterConfig.ID c = Return "" /\ ClusterConfig.Secret c = Return "")
  /\ (token = "abc123.def456" ->
      ClusterConfig.ID c = Return "abc123"
      /\ ClusterConfig.Secret c = Return "def456")
  /\ (token = "malformed" \/ token = "a.b.c" ->
      ClusterConfig.ID c = Return "" /\ ClusterConfig.Secret c = Return "").
Proof.
  intros token parts.
  destruct (ID_cases c) as [I2 In]. destruct (Secret_cases c) as [S2 Sn].
  fold token in I2, In, S2, Sn. fold parts in I2, In, S2, Sn.
  assert (Hab : forall a b,
            strings.CountByte a "." = 0 -> strings.CountByte b "." = 0 ->
            token = a +:+ "." +:+ b ->
            ClusterConfig.ID c = Return a /\ ClusterConfig.Secret c = Return b).
  { intros a b Ha Hb Ht.
    assert (Hp : parts = [a; b]).
    { unfold parts. rewrite Ht. now apply Split_two. }
    rewrite I2, S2 by now rewrite Hp. now rewrite Hp. }
  assert (Hcount : strings.CountByte token "." <> 1 ->
            ClusterConfig.ID c = Return "" /\ ClusterConfig.Secret c = Return "").
  { intros Hc.
    assert (Hl : length parts <> 2%nat).
    { pose proof (Split_length token ".") as Hs. fold parts in Hs. lia. }
    now rewrite In, Sn. }
  split; [intros Hl; split; auto|].
  split; [intros Hl; split; auto|].
  split; [exact Hab|]. split; [exact Hcount|]. split.
  - intros Ht. apply (Hab "abc123" "def456"); [reflexivity | reflexivity | exact Ht].
  - intros [Ht | Ht]; apply Hcount; rewrite Ht; vm_compute; discriminate.
Qed.

(** C6 at the three tokens of the specification. *)
Lemma C6_bootstrap_token_witness :
  let with_token t := ClusterConfig.mk None "" None t "" "" None None None None None in
  (ClusterConfig.ID (with_token "abc123.def456") = Return "abc123"
   /\ ClusterConfig.Secret (with_token "abc123.def456") = Return "def456")
  /\ (ClusterConfig.ID (with_token "malformed") = Return ""
      /\ ClusterConfig.Secret (with_token "malformed") = Return "")
  /\ (ClusterConfig.ID (with_token "a.b.c") = Return ""
      /\ ClusterConfig.Secret (with_token "a.b.c") = Return "").
Proof.
  intros with_token.
  split; [|split].
  - apply (C6_bootstrap_token (with_token "abc123.def456")). reflexivity.
  - apply (C6_bootstrap_token (with_token "malformed")). left; reflexivity.
  - apply (C6_bootstrap_token (with_token "a.b.c")). right; reflexivity.
Defined.

(** C7: with a non-nil [ControlPlane], [LocalAPIServerPort] returns the
    field when it is nonzero and 6443 when it is zero. *)
Theorem C7_LocalAPIServerPort_default (c : ClusterConfig.t) (cp : ControlPlaneConfig.t) :
  ClusterConfig.ControlPlane c = Some cp ->
  (ControlPlaneConfig.LocalAPIServerPort cp <> 0 ->
   ClusterConfig.LocalAPIServerPort c
   = Return (ControlPlaneConfig.LocalAPIServerPort cp))
  /\ (ControlPlaneConfig.LocalAPIServerPort cp = 0 ->
      ClusterConfig.LocalAPIServerPort c = Return 6443).
Proof.
  intros Hcp. unfold ClusterConfig.LocalAPIServerPort. rewrite Hcp. simpl.
  case_eq (ControlPlaneConfig.LocalAPIServerPort cp =? 0); intros E.
  - apply Z.eqb_eq in E. split; [congruence | reflexivity].
  - apply Z.eqb_neq in E. split; [reflexivity | congruence].
Qed.

(** C7 at a control plane listening on 8443 and at one with the port unset. *)
Lemma C7_LocalAPIServerPort_default_witness :
  let with_port p :=
    ClusterConfig.mk (Some (ControlPlaneConfig.mk "" None p))
                     "" None "" "" "" None None None None None in
  ClusterConfig.LocalAPIServerPort (with_port 8443) = Return 8443
  /\ ClusterConfig.LocalAPIServerPort (with_port 0) = Return 6443.
Proof.
  intros with_port. split.
  - apply (C7_LocalAPIServerPort_default (with_port 8443)
             (ControlPlaneConfig.mk "" None 8443) eq_refl). simpl. lia.
  - apply (C7_LocalAPIServerPort_default (with_port 0)
             (ControlPlaneConfig.mk "" None 0) eq_refl). reflexivity.
Defined.

(** C8: [CNI] returns [ClusterNetwork.CNI] when the network is non-nil
    and the field non-empty, and the default otherwise; [PodCIDR] returns
    [PodSubnet[0]] when the network is non-nil and the sequence
    non-empty, and the default otherwise; [ServiceCIDR] does the same
    over [ServiceSubnet]; two configurations whose subnet sequences agree
    on their first element get the same results, whatever follows it. *)
Theorem C8_network_defaults (DefaultCNI DefaultPodCIDR DefaultServiceCIDR : string)
  (c : ClusterConfig.t) :
  (forall n, ClusterConfig.ClusterNetwork c = Some n ->
             ClusterNetworkConfig.CNI n <> "" ->
             ClusterConfig.CNI DefaultCNI c = Return (ClusterNetworkConfig.CNI n))
  /\ (ClusterConfig.ClusterNetwork c = None
      \/ (exists n, ClusterConfig.ClusterNetwork c = Some n
                    /\ ClusterNetworkConfig.CNI n = "") ->
      ClusterConfig.CNI DefaultCNI c = Return DefaultCNI)
  /\ (forall n x rest,
        ClusterConfig.ClusterNetwork c = Some n ->
        ClusterNetworkConfig.PodSubnet n = x :: rest ->
        ClusterConfig.PodCIDR DefaultPodCIDR c = Return x)
  /\ (ClusterConfig.ClusterNetwork c = None
      \/ (exists n, ClusterConfig.ClusterNetwork c = Some n
                    /\ ClusterNetworkConfig.PodSubnet n = []) ->
      ClusterConfig.PodCIDR DefaultPodCIDR c = Return DefaultPodCIDR)
  /\ (forall n x rest,
        ClusterConfig.ClusterNetwork c = Some n ->
        ClusterNetworkConfig.ServiceSubnet n = x :: rest ->
        ClusterConfig.ServiceCIDR DefaultServiceCIDR c = Return x)
  /\ (ClusterConfig.ClusterNetwork c = None
      \/ (exists n, ClusterConfig.ClusterNetwork c = Some n
                    /\ ClusterNetworkConfig.ServiceSubnet n = []) ->
      ClusterConfig.ServiceCIDR DefaultServiceCIDR c = Return DefaultServiceCIDR)
  /\ (forall c' n n',
        ClusterConfig.ClusterNetwork c = Some n ->
        ClusterConfig.ClusterNetwork c' = Some n' ->
        (hd_error (ClusterNetworkConfig.PodSubnet n)
         = hd_error (ClusterNetworkConfig.PodSubnet n') ->
         ClusterConfig.PodCIDR DefaultPodCIDR c
         = ClusterConfig.PodCIDR DefaultPodCIDR c')
        /\ (hd_error (ClusterNetworkConfig.ServiceSubnet n)
            = hd_error (ClusterNetworkConfig.ServiceSubnet n') ->
            ClusterConfig.ServiceCIDR DefaultServiceCIDR c
            = ClusterConfig.ServiceCIDR DefaultServiceCIDR c')).
Proof.
  rewrite CNI_value, PodCIDR_value, ServiceCIDR_value.
  split; [|split; [|split; [|split; [|split; [|split]]]]].
  - intros n -> Hn. apply String.eqb_neq in Hn. now rewrite Hn.
  - intros [-> | (n & -> & ->)]; reflexivity.
  - intros n x rest -> ->. reflexivity.
  - intros [-> | (n & -> & ->)]; reflexivity.
  - intros n x rest -> ->. reflexivity.
  - intros [-> | (n & -> & ->)]; reflexivity.
  - intros c' n n' -> Hc'.
    rewrite PodCIDR_value, ServiceCIDR_value, Hc'.
    split; intros Hhd.
    + destruct (ClusterNetworkConfig.PodSubnet n),
               (ClusterNetworkConfig.PodSubnet n'); simpl in *; congruence.
    + destruct (ClusterNetworkConfig.ServiceSubnet n),
               (ClusterNetworkConfig.ServiceSubnet n'); simpl in *; congruence.
Qed.

(** C8 at a network with a CNI and two pod subnets, against the same
    network with another second subnet: the first subnet is returned in
    both, and the absent service subnets give the default. *)
Lemma C8_network_defaults_witness :
  let net pods := ClusterNetworkConfig.mk "custom" "cluster.local" pods [] in
  let cfg pods :=
    ClusterConfig.mk None "" (Some (net pods)) "" "" "" None None None None None in
  ClusterConfig.CNI "d-cni" (cfg ["10.0.0.0/16"; "fd00::/48"]) = Return "custom"
  /\ ClusterConfig.PodCIDR "d-pod" (cfg ["10.0.0.0/16"; "fd00::/48"])
     = Return "10.0.0.0/16"
  /\ ClusterConfig.ServiceCIDR "d-svc" (cfg ["10.0.0.0/16"; "fd00::/48"])
     = Return "d-svc"
  /\ ClusterConfig.PodCIDR "d-pod" (cfg ["10.0.0.0/16"; "fd00::/48"])
     = ClusterConfig.PodCIDR "d-pod" (cfg ["10.0.0.0/16"; "192.168.0.0/24"]).
Proof.
  intros net cfg.
  pose proof (C8_network_defaults "d-cni" "d-pod" "d-svc"
                (cfg ["10.0.0.0/16"; "fd00::/48"]))
    as (Hcni & _ & Hpod & _ & _ & Hsvc & Hsame).
  split; [|split; [|split]].
  - apply (Hcni (net ["10.0.0.0/16"; "fd00::/48"])); [reflexivity | discriminate].
  - apply (Hpod (net ["10.0.0.0/16"; "fd00::/48"]) "10.0.0.0/16" ["fd00::/48"]);
      reflexivity.
  - apply Hsvc. right. exists (net ["10.0.0.0/16"; "fd00::/48"]). now split.
  - apply (Hsame (cfg ["10.0.0.0/16"; "192.168.0.0/24"])
                 (net ["10.0.0.0/16"; "fd00::/48"])
                 (net ["10.0.0.0/16"; "192.168.0.0/24"])); reflexivity.
Defined.

(** C10: [SetCertSANs] never panics, also on a nil [APIServer];
    afterwards [APIServer] is non-nil and its [CertSANs] are the previous
    ones (none if [APIServer] was nil) followed by the new ones in
    order, its [Image] and [ExtraArgs] are the previous ones (the zero
    values if it was nil), and every other field of the struct is
    unchanged. *)
Theorem C10_SetCertSANs_frame (c : ClusterConfig.t) (sans : list string) :
  let old := match ClusterConfig.APIServer c with
             | Some a => a
             | None => APIServerConfig.zero
             end in
  exists c' a',
    ClusterConfig.SetCertSANs c sans = Return c'
    /\ ClusterConfig.APIServer c' = Some a'
    /\ APIServerConfig.CertSANs a' = APIServerConfig.CertSANs old ++ sans
    /\ APIServerConfig.Image a' = APIServerConfig.Image old
    /\ APIServerConfig.ExtraArgs a' = APIServerConfig.ExtraArgs old
    /\ ClusterConfig.ControlPlane c' = ClusterConfig.ControlPlane c
    /\ ClusterConfig.ClusterName c' = ClusterConfig.ClusterName c
    /\ ClusterConfig.ClusterNetwork c' = ClusterConfig.ClusterNetwork c
    /\ ClusterConfig.BootstrapToken c' = ClusterConfig.BootstrapToken c
    /\ ClusterConfig.CertificateKey c' = ClusterConfig.CertificateKey c
    /\ ClusterConfig.ClusterAESCBCEncryptionSecret c'
       = ClusterConfig.ClusterAESCBCEncryptionSecret c
    /\ ClusterConfig.ClusterCA c' = ClusterConfig.ClusterCA c
    /\ ClusterConfig.ControllerManager c' = ClusterConfig.ControllerManager c
    /\ ClusterConfig.Scheduler c' = ClusterConfig.Scheduler c
    /\ ClusterConfig.EtcdConfig c' = ClusterConfig.EtcdConfig c.
Proof.
  destruct c as [cp name net tok key aes ca api cm sch etcd].
  destruct api as [a|]; cbn.
  - eexists _, _. repeat split.
  - eexists _, _. repeat split.
Qed.

(** ** The validator *)

Section ValidatorFacts.

Import machinery.

Context `{RuntimeMode M}.
Variable structural_rules : Config.t -> list Violation.

Lemma messages_ErrorOrNil (msgs : list string) : messages (ErrorOrNil msgs) = msgs.
Proof. now destruct msgs. Qed.

Lemma warnings_of_app (a b : list Violation) :
  warnings_of (a ++ b) = warnings_of a ++ warnings_of b.
Proof. unfold warnings_of. now rewrite List.filter_app, List.map_app. Qed.

Lemma errors_of_app (a b : list Violation) :
  errors_of (a ++ b) = errors_of a ++ errors_of b.
Proof. unfold errors_of. now rewrite List.filter_app, List.map_app. Qed.

(** A single message renders as the [1 error occurred] block. *)
Lemma Error_single (msg : string) :
  Error (mkAggregated [msg]) = TestValidate.one_error msg.
Proof.
  unfold Error, TestValidate.one_error. cbn [Errors length Nat.eqb map].
  cbn [String.concat]. rewrite !append_assoc. reflexivity.
Qed.

Lemma warnings_of_failures (msgs : list string) :
  warnings_of (map failure msgs) = [].
Proof. induction msgs as [|m msgs IH]; [reflexivity | exact IH]. Qed.

Lemma errors_of_failures (msgs : list string) :
  errors_of (map failure msgs) = msgs.
Proof.
  induction msgs as [|m msgs IH]; [reflexivity|].
  unfold errors_of in *. simpl. now rewrite IH.
Qed.

(** When rules 2 to 5 find failures only, they are the error, in order,
    in both modes. *)
Lemma Validate_failures (doc : Config.t) (mode : M)
  (mc : MachineConfig.t) (opts : ValidationOptions) (msgs : list string) :
  Config.MachineConfig doc = Some mc ->
  violations structural_rules doc mode mc = map failure msgs ->
  Validate structural_rules doc mode opts = ([], ErrorOrNil msgs).
Proof.
  intros Hmc Hvs. unfold Validate. rewrite Hmc, Hvs.
  rewrite warnings_of_failures, errors_of_failures. simpl.
  rewrite app_nil_r. now destruct (Strict opts).
Qed.

Lemma Validate_failure (doc : Config.t) (mode : M)
  (mc : MachineConfig.t) (opts : ValidationOptions) (msg : string) :
  Config.MachineConfig doc = Some mc ->
  violations structural_rules doc mode mc = [failure msg] ->
  exists e, Validate structural_rules doc mode opts = ([], Some e)
            /\ Errors e = [msg]
            /\ Error e = "1 error occurred:" +:+ nl +:+ tab +:+ "* " +:+ msg
                         +:+ nl +:+ nl.
Proof.
  intros Hmc Hvs. exists (mkAggregated [msg]).
  rewrite (Validate_failures doc mode mc opts [msg] Hmc Hvs).
  split; [reflexivity | split; [reflexivity | apply Error_single]].
Qed.

Lemma find_first_invalid (pre post : list string) (m : string) :
  Forall (fun x => absolute_with_hostname x = true) pre ->
  absolute_with_hostname m = false ->
  List.find (fun x => negb (absolute_with_hostname x)) (pre ++ m :: post) = Some m.
Proof.
  intros Hpre Hm. induction Hpre as [|x pre Hx _ IH]; simpl.
  - now rewrite Hm.
  - now rewrite Hx.
Qed.

Lemma find_all_valid (l : list string) :
  Forall (fun x => absolute_with_hostname x = true) l ->
  List.find (fun x => negb (absolute_with_hostname x)) l = None.
Proof.
  intros Hl. induction Hl as [|x l Hx _ IH]; simpl; [reflexivity|].
  now rewrite Hx.
Qed.

(** [Validate] reads the structural rules at its document only. *)
Lemma Validate_structural_rules_ext (rules' : Config.t -> list Violation)
  (doc : Config.t) (mode : M) (opts : ValidationOptions) :
  structural_rules doc = rules' doc ->
  Validate structural_rules doc mode opts = Validate rules' doc mode opts.
Proof. intros E. unfold Validate, violations. now rewrite E. Qed.

(** C1: in strict mode the warnings sequence is empty and every warning
    of the non-strict run is in the aggregated error as
    [warning: <message>], after the errors of the non-strict run; in
    non-strict mode the warnings are returned as they are and the error
    holds the failures only.  On a document that is valid but for its
    empty machine type, the non-strict run returns the warning
    [machine type is empty] and no error, and the strict run no warning
    and the error [1 error occurred:\n\t* warning: machine type is empty\n\n]. *)
Theorem C1_strict_promotes_warnings (doc : Config.t) (mode : M) (local : bool) :
  let lax := Validate structural_rules doc mode (mkOptions local false) in
  let strict := Validate structural_rules doc mode (mkOptions local true) in
  fst strict = []
  /\ (forall w, In w (fst lax) -> In ("warning: " +:+ w) (messages (snd strict)))
  /\ messages (snd strict)
     = messages (snd lax) ++ map (fun w => "warning: " +:+ w) (fst lax)
  /\ (forall mc,
        Config.MachineConfig doc = Some mc ->
        fst lax = warnings_of (violations structural_rules doc mode mc)
        /\ messages (snd lax) = errors_of (violations structural_rules doc mode mc))
  /\ (forall mc,
        Config.MachineConfig doc = Some mc ->
        MachineConfig.MachineType mc = "" ->
        rule_install mode mc = [] ->
        rule_external_cloud_provider doc = [] ->
        structural_rules doc = [] ->
        lax = (["machine type is empty"], None)
        /\ exists e,
             strict = ([], Some e)
             /\ Error e = "1 error occurred:" +:+ nl +:+ tab
                          +:+ "* warning: machine type is empty" +:+ nl +:+ nl).
Proof.
  intros lax strict. subst lax strict. unfold Validate. cbn [Strict].
  destruct (Config.MachineConfig doc) as [mc|] eqn:Hmc; cbn [fst snd].
  - rewrite !messages_ErrorOrNil.
    split; [reflexivity|]. split; [|split; [reflexivity|split]].
    + intros w Hw. apply in_or_app. right.
      apply (in_map (fun w => "warning: " +:+ w)), Hw.
    + intros mc' E. injection E as <-. now split.
    + intros mc' E Hty Hins Hecp Hstr. injection E as <-.
      unfold violations, rule_machine_type.
      rewrite Hty, Hins, Hecp, Hstr. cbn.
      split; [reflexivity|]. eexists. split; [reflexivity|].
      apply (Error_single "warning: machine type is empty").
  - split; [reflexivity|]. split; [intros w []|].
    split; [reflexivity|]. split; intros mc E; discriminate E.
Qed.

(** C2: a document whose [MachineConfig] is nil gets no warnings and the
    one error [machine instructions are required], rendered as
    [1 error occurred:\n\t* machine instructions are required\n\n], for
    every runtime mode and all options. *)
Theorem C2_machine_config_required (doc : Config.t) (mode : M)
  (opts : ValidationOptions) :
  Config.MachineConfig doc = None ->
  exists e,
    Validate structural_rules doc mode opts = ([], Some e)
    /\ Errors e = ["machine instructions are required"]
    /\ Error e = "1 error occurred:" +:+ nl +:+ tab
                 +:+ "* machine instructions are required" +:+ nl +:+ nl.
Proof.
  intros Hmc. unfold Validate. rewrite Hmc.
  eexists. split; [reflexivity|]. split; [reflexivity|].
  apply (Error_single "machine instructions are required").
Qed.

(** Rule 2 finds warnings only, rule 3 failures only. *)
Lemma errors_of_rule_machine_type (mc : MachineConfig.t) :
  errors_of (rule_machine_type mc) = [].
Proof.
  unfold rule_machine_type.
  now destruct (String.eqb (MachineConfig.MachineType mc) "").
Qed.

Lemma warnings_of_rule_install (mode : M) (mc : MachineConfig.t) :
  warnings_of (rule_install mode mc) = [].
Proof.
  unfold rule_install. now destruct (RequiresInstall mode && install_missing mc).
Qed.

(** The install message is no promoted warning and no message of rule 4. *)
Lemma install_message_not_promoted (mode : M) (ws : list string) :
  ~ In (install_required_message mode) (map (fun w => "warning: " +:+ w) ws).
Proof.
  intros Hin. apply in_map_iff in Hin as (w & Hw & _).
  unfold install_required_message in Hw. cbn in Hw. discriminate Hw.
Qed.

Lemma install_message_not_external (mode : M) (doc : Config.t) :
  ~ In (install_required_message mode) (errors_of (rule_external_cloud_provider doc)).
Proof.
  unfold rule_external_cloud_provider, install_required_message.
  destruct (negb (external_enabled doc)).
  - destruct (external_manifests doc); cbn; [tauto|].
    intros [Hx | []]. discriminate Hx.
  - destruct (List.find _ (external_manifests doc)) as [m|]; cbn; [|tauto].
    unfold invalid_manifest_message. intros [Hx | []]. cbn in Hx. discriminate Hx.
Qed.

(** C3: when the mode requires an install, rule 3 yields the error
    [install instructions are required in "<mode.String()>" mode]
    exactly when [MachineInstall] is nil or its [InstallDisk] is empty,
    and nothing when the disk is set; when the mode does not require an
    install it yields nothing.  On a document with a machine
    configuration that is valid for the other rules, [Validate] returns
    that one error in the first case and no error in the others.  On
    every document with a machine configuration, whatever the other
    rules find and in both modes: when the mode requires an install and
    the install or its disk is missing, the error of [Validate] is that
    message followed by what the other rules report; otherwise it is
    what the other rules report alone; the warnings never depend on the
    rule; and the message is among the errors only in the first case,
    unless a structural rule reports the very same text. *)
Theorem C3_install_requirement (mode : M) (mc : MachineConfig.t) :
  let msg := "install instructions are required in " +:+ quote
             +:+ String_ mode +:+ quote +:+ " mode" in
  let absent :=
    MachineConfig.MachineInstall mc = None
    \/ (exists i, MachineConfig.MachineInstall mc = Some i
                  /\ InstallConfig.InstallDisk i = "") in
  (RequiresInstall mode = true ->
     (rule_install mode mc = [failure msg] <-> absent)
     /\ (rule_install mode mc = [] <-> ~ absent))
  /\ (RequiresInstall mode = false -> rule_install mode mc = [])
  /\ (forall doc opts,
        Config.MachineConfig doc = Some mc ->
        rule_machine_type mc = [] ->
        rule_external_cloud_provider doc = [] ->
        structural_rules doc = [] ->
        (RequiresInstall mode = true -> absent ->
         exists e, Validate structural_rules doc mode opts = ([], Some e)
                   /\ Errors e = [msg]
                   /\ Error e = "1 error occurred:" +:+ nl +:+ tab +:+ "* "
                                +:+ msg +:+ nl +:+ nl)
        /\ (RequiresInstall mode = false \/ ~ absent ->
            Validate structural_rules doc mode opts = ([], None)))
  /\ (forall doc opts,
        Config.MachineConfig doc = Some mc ->
        let v := Validate structural_rules doc mode opts in
        let others :=
          rule_machine_type mc ++ rule_external_cloud_provider doc
          ++ structural_rules doc in
        let rest :=
          errors_of others
          ++ (if Strict opts
              then map (fun w => "warning: " +:+ w) (warnings_of others)
              else []) in
        fst v = (if Strict opts then [] else warnings_of others)
        /\ (RequiresInstall mode = true -> absent ->
            messages (snd v) = msg :: rest /\ In msg (messages (snd v)))
        /\ (RequiresInstall mode = false \/ ~ absent ->
            messages (snd v) = rest)
        /\ (In msg (messages (snd v)) ->
            (RequiresInstall mode = true /\ absent)
            \/ In msg (errors_of (structural_rules doc)))).
Proof.
  intros msg absent.
  assert (Habs : install_missing mc = true <-> absent).
  { unfold install_missing, absent.
    destruct (MachineConfig.MachineInstall mc) as [i|].
    - rewrite String.eqb_eq. split.
      + intros E. right. now exists i.
      + intros [E | (j & E & Hj)]; [discriminate | now injection E as <-].
    - split; [now left | reflexivity]. }
  assert (Hrule : rule_install mode mc
                  = if RequiresInstall mode && install_missing mc
                    then [failure msg] else []) by reflexivity.
  split; [|split; [|split]].
  - intros Hreq. rewrite Hrule, Hreq. simpl.
    destruct (install_missing mc); split; split; intros Hx;
      try reflexivity; try discriminate.
    + now apply Habs.
    + exfalso. apply Hx. now apply Habs.
    + apply Habs in Hx. discriminate.
    + intros Ha. apply Habs in Ha. discriminate.
  - intros Hreq. now rewrite Hrule, Hreq.
  - intros doc opts Hmc Hty Hecp Hstr. split.
    + intros Hreq Ha. apply (Validate_failure doc mode mc opts msg Hmc).
      unfold violations. rewrite Hty, Hecp, Hstr, Hrule, Hreq.
      apply Habs in Ha. now rewrite Ha.
    + intros Hno. apply (Validate_failures doc mode mc opts [] Hmc).
      unfold violations. rewrite Hty, Hecp, Hstr, Hrule.
      destruct Hno as [Hreq | Hna]; [now rewrite Hreq|].
      destruct (install_missing mc); [|now rewrite andb_false_r].
      exfalso. apply Hna. now apply Habs.
  - intros doc opts Hmc v others rest.
    assert (Hw : warnings_of (violations structural_rules doc mode mc)
                 = warnings_of others).
    { unfold violations, others.
      now rewrite !warnings_of_app, warnings_of_rule_install. }
    assert (He : errors_of (violations structural_rules doc mode mc)
                 = errors_of (rule_install mode mc) ++ errors_of others).
    { unfold violations, others.
      now rewrite !errors_of_app, errors_of_rule_machine_type. }
    assert (Hmsgs : messages (snd v) = errors_of (rule_install mode mc) ++ rest).
    { subst v rest. unfold Validate. rewrite Hmc. cbv zeta.
      destruct (Strict opts); cbn [snd]; rewrite messages_ErrorOrNil, He, ?Hw.
      - now rewrite app_assoc.
      - now rewrite app_nil_r. }
    assert (Hfst : fst v = if Strict opts then [] else warnings_of others).
    { subst v. unfold Validate. rewrite Hmc. cbv zeta.
      destruct (Strict opts); cbn [fst]; [reflexivity | exact Hw]. }
    split; [exact Hfst|]. rewrite Hmsgs, Hrule. split; [|split].
    + intros Hreq Ha. apply Habs in Ha. rewrite Hreq, Ha.
      split; [reflexivity | now left].
    + intros [Hreq | Hna]; [now rewrite Hreq|].
      destruct (install_missing mc); [|now rewrite andb_false_r].
      exfalso. apply Hna. now apply Habs.
    + destruct (RequiresInstall mode) eqn:Hreq;
        destruct (install_missing mc) eqn:Hmiss; cbn [andb].
      * intros _. left. split; [reflexivity | now apply Habs].
      * cbn [errors_of List.filter map app].
        intros Hin. right. revert Hin. subst rest others. clear -Hmc.
        rewrite !errors_of_app, errors_of_rule_machine_type. cbn [app].
        intros Hin. apply in_app_or in Hin as [Hin | Hin].
        -- apply in_app_or in Hin as [Hin | Hin]; [|exact Hin].
           destruct (install_message_not_external mode doc Hin).
        -- destruct (Strict opts); [|destruct Hin].
           destruct (install_message_not_promoted mode _ Hin).
      * cbn [errors_of List.filter map app].
        intros Hin. right. revert Hin. subst rest others. clear -Hmc.
        rewrite !errors_of_app, errors_of_rule_machine_type. cbn [app].
        intros Hin. apply in_app_or in Hin as [Hin | Hin].
        -- apply in_app_or in Hin as [Hin | Hin]; [|exact Hin].
           destruct (install_message_not_external mode doc Hin).
        -- destruct (Strict opts); [|destruct Hin].
           destruct (install_message_not_promoted mode _ Hin).
      * cbn [errors_of List.filter map app].
        intros Hin. right. revert Hin. subst rest others. clear -Hmc.
        rewrite !errors_of_app, errors_of_rule_machine_type. cbn [app].
        intros Hin. apply in_app_or in Hin as [Hin | Hin].
        -- apply in_app_or in Hin as [Hin | Hin]; [|exact Hin].
           destruct (install_message_not_external mode doc Hin).
        -- destruct (Strict opts); [|destruct Hin].
           destruct (install_message_not_promoted mode _ Hin).
Qed.

(** C4: on a document that is valid for the other rules, when the
    external cloud provider is disabled (or absent) and manifests are
    given, [Validate] returns exactly the error
    [external cloud provider is disabled, but manifests are provided];
    when it is enabled and some manifest is not an absolute URL with a
    non-blank hostname, [Validate] returns the error
    [invalid external cloud provider manifest url "<url>": hostname must not be blank]
    for the first such manifest; when it is enabled and every manifest
    is such a URL (or there is none), the rule finds nothing and
    [Validate] returns no warning and no error. *)
Theorem C4_external_cloud_provider (doc : Config.t) (mode : M)
  (mc : MachineConfig.t) (opts : ValidationOptions) :
  Config.MachineConfig doc = Some mc ->
  rule_machine_type mc = [] ->
  rule_install mode mc = [] ->
  structural_rules doc = [] ->
  let valid m := absolute_with_hostname m = true in
  let single msg :=
    exists e, Validate structural_rules doc mode opts = ([], Some e)
              /\ Errors e = [msg]
              /\ Error e = "1 error occurred:" +:+ nl +:+ tab +:+ "* " +:+ msg
                           +:+ nl +:+ nl in
  (external_enabled doc = false -> external_manifests doc <> [] ->
   single "external cloud provider is disabled, but manifests are provided")
  /\ (external_enabled doc = true ->
      forall pre m post,
        external_manifests doc = pre ++ m :: post ->
        Forall valid pre -> ~ valid m ->
        single ("invalid external cloud provider manifest url " +:+ quote +:+ m
                +:+ quote +:+ ": hostname must not be blank"))
  /\ (external_enabled doc = true ->
      Forall valid (external_manifests doc) ->
      rule_external_cloud_provider doc = []
      /\ Validate structural_rules doc mode opts = ([], None)).
Proof.
  intros Hmc Hty Hins Hstr valid single.
  assert (Hvs : violations structural_rules doc mode mc
                = rule_external_cloud_provider doc).
  { unfold violations. rewrite Hty, Hins, Hstr. simpl. apply app_nil_r. }
  unfold single. split; [|split].
  - intros Hen Hms. apply (Validate_failure doc mode mc opts _ Hmc).
    rewrite Hvs. unfold rule_external_cloud_provider. rewrite Hen. simpl.
    destruct (external_manifests doc); [congruence | reflexivity].
  - intros Hen pre m post Hms Hpre Hm.
    apply (Validate_failure doc mode mc opts _ Hmc).
    rewrite Hvs. unfold rule_external_cloud_provider. rewrite Hen, Hms. simpl.
    rewrite (find_first_invalid pre post m Hpre); [reflexivity|].
    unfold valid in Hm. now destruct (absolute_with_hostname m).
  - intros Hen Hall.
    assert (Hr : rule_external_cloud_provider doc = []).
    { unfold rule_external_cloud_provider. rewrite Hen. simpl.
      now rewrite (find_all_valid _ Hall). }
    split; [exact Hr|].
    apply (Validate_failures doc mode mc opts [] Hmc). now rewrite Hvs.
Qed.

End ValidatorFacts.

(** The source's test passes on the model: every case of [TestValidate]
    gets the warnings and the error it expects, provided the structural
    rules find nothing in the test's documents. *)
Theorem TestValidate_passes (structural_rules : machinery.Config.t -> list machinery.Violation) :
  Forall (fun t => structural_rules (TestValidate.config t) = []) TestValidate.tests ->
  Forall (fun t => TestValidate.run structural_rules t = true) TestValidate.tests.
Proof.
  intros Hs.
  assert (H0 : Forall (fun t => TestValidate.run (fun _ => []) t = true)
                      TestValidate.tests).
  { repeat constructor. }
  rewrite Forall_forall in *. intros t Ht.
  rewrite <- (H0 t Ht). unfold TestValidate.run.
  now rewrite (Validate_structural_rules_ext structural_rules (fun _ => []) _ _ _
                 (Hs t Ht)).
Qed.

Section ValidatorWitnesses.

Import machinery.

(** C1 at the document of the test cases [NoMachineType] and
    [NoMachineTypeStrict]. *)
Lemma C1_strict_promotes_warnings_witness :
  let doc := Config.mk "v1alpha1" (Some (MachineConfig.mk "" None))
                       (Some (TestValidate.cluster None)) in
  Validate TestValidate.no_rules doc (mk_runtimeMode false) (mkOptions true false)
  = (["machine type is empty"], None)
  /\ exists e,
       Validate TestValidate.no_rules doc (mk_runtimeMode false) (mkOptions true true)
       = ([], Some e)
       /\ Error e = "1 error occurred:" +:+ nl +:+ tab
                    +:+ "* warning: machine type is empty" +:+ nl +:+ nl.
Proof.
  intros doc.
  pose proof (C1_strict_promotes_warnings TestValidate.no_rules doc (mk_runtimeMode false) true)
    as (_ & _ & _ & _ & Hex).
  apply (Hex (MachineConfig.mk "" None)); reflexivity.
Defined.

(** C2 at the document of the test case [NoMachine], in strict mode and
    a mode that requires an install. *)
Lemma C2_machine_config_required_witness :
  exists e,
    Validate TestValidate.no_rules (Config.mk "v1alpha1" None None) (mk_runtimeMode true)
             (mkOptions true true) = ([], Some e)
    /\ Errors e = ["machine instructions are required"]
    /\ Error e = "1 error occurred:" +:+ nl +:+ tab
                 +:+ "* machine instructions are required" +:+ nl +:+ nl.
Proof.
  apply (C2_machine_config_required TestValidate.no_rules (Config.mk "v1alpha1" None None)
           (mk_runtimeMode true) (mkOptions true true)).
  reflexivity.
Defined.

(** C3 at the test cases [NoMachineInstallRequired] and
    [MachineInstallDisk]: the first gets the error naming
    [runtimeMode(true)], the second none; and at a document with an
    empty machine type and no install, where the warning of rule 2 does
    not keep the install error away. *)
Lemma C3_install_requirement_witness :
  (exists e,
     Validate TestValidate.no_rules
       (Config.mk "v1alpha1" (Some (TestValidate.join None))
                  (Some (TestValidate.cluster None)))
              (mk_runtimeMode true) (mkOptions true false) = ([], Some e)
     /\ Error e = "1 error occurred:" +:+ nl +:+ tab
                  +:+ "* install instructions are required in " +:+ quote
                  +:+ "runtimeMode(true)" +:+ quote +:+ " mode" +:+ nl +:+ nl)
  /\ Validate TestValidate.no_rules
       (Config.mk "v1alpha1"
          (Some (TestValidate.join (Some (InstallConfig.mk "/dev/vda"))))
          (Some (TestValidate.cluster None)))
       (mk_runtimeMode true) (mkOptions true false) = ([], None)
  /\ (let v := Validate TestValidate.no_rules
                 (Config.mk "v1alpha1" (Some (MachineConfig.mk "" None))
                            (Some (TestValidate.cluster None)))
                 (mk_runtimeMode true) (mkOptions true false) in
      fst v = ["machine type is empty"]
      /\ messages (snd v)
         = ["install instructions are required in " +:+ quote
            +:+ "runtimeMode(true)" +:+ quote +:+ " mode"]).
Proof.
  split; [|split].
  - pose proof (C3_install_requirement TestValidate.no_rules (mk_runtimeMode true)
                  (TestValidate.join None))
      as (_ & _ & Hv & _).
    destruct (Hv (Config.mk "v1alpha1" (Some (TestValidate.join None))
                            (Some (TestValidate.cluster None)))
                 (mkOptions true false) eq_refl eq_refl eq_refl eq_refl)
      as [Hyes _].
    destruct (Hyes eq_refl (or_introl eq_refl)) as (e & He & _ & Hr).
    exists e. split; [exact He|]. rewrite Hr. reflexivity.
  - pose proof (C3_install_requirement TestValidate.no_rules (mk_runtimeMode true)
                  (TestValidate.join (Some (InstallConfig.mk "/dev/vda"))))
      as (_ & _ & Hv & _).
    apply Hv; try reflexivity.
    right. intros [E | (i & E & Hi)]; [discriminate|].
    injection E as <-. discriminate Hi.
  - pose proof (C3_install_requirement TestValidate.no_rules (mk_runtimeMode true)
                  (MachineConfig.mk "" None))
      as (_ & _ & _ & Hall).
    destruct (Hall (Config.mk "v1alpha1" (Some (MachineConfig.mk "" None))
                              (Some (TestValidate.cluster None)))
                   (mkOptions true false) eq_refl)
      as (Hfst & Hyes & _).
    split; [exact Hfst|].
    destruct (Hyes eq_refl (or_introl eq_refl)) as [Hm _]. exact Hm.
Defined.

(** C4 at the test cases [ExternalCloudProviderExtraManifests],
    [ExternalCloudProviderInvalidManifests] and
    [ExternalCloudProviderEnabled]. *)
Lemma C4_external_cloud_provider_witness :
  let doc ecp :=
    Config.mk "v1alpha1" (Some (TestValidate.join None))
              (Some (TestValidate.cluster (Some ecp))) in
  let mode := mk_runtimeMode false in
  let opts := mkOptions true false in
  (exists e,
     Validate TestValidate.no_rules
       (doc (ExternalCloudProviderConfig.mk false TestValidate.manifests12))
       mode opts = ([], Some e)
     /\ Errors e = ["external cloud provider is disabled, but manifests are provided"])
  /\ (exists e,
        Validate TestValidate.no_rules
          (doc (ExternalCloudProviderConfig.mk true ["/manifest.yaml"]))
                 mode opts = ([], Some e)
        /\ Errors e = ["invalid external cloud provider manifest url " +:+ quote
                       +:+ "/manifest.yaml" +:+ quote
                       +:+ ": hostname must not be blank"])
  /\ Validate TestValidate.no_rules
       (doc (ExternalCloudProviderConfig.mk true TestValidate.manifests12))
       mode opts = ([], None).
Proof.
  intros doc mode opts. split; [|split].
  - pose proof (C4_external_cloud_provider TestValidate.no_rules
                  (doc (ExternalCloudProviderConfig.mk false TestValidate.manifests12))
                  mode (TestValidate.join None) opts) as Hc.
    destruct (Hc eq_refl eq_refl eq_refl eq_refl) as (Hoff & _ & _).
    destruct (Hoff eq_refl ltac:(discriminate)) as (e & He & Hm & _).
    now exists e.
  - pose proof (C4_external_cloud_provider TestValidate.no_rules
                  (doc (ExternalCloudProviderConfig.mk true ["/manifest.yaml"]))
                  mode (TestValidate.join None) opts) as Hc.
    destruct (Hc eq_refl eq_refl eq_refl eq_refl) as (_ & Hbad & _).
    destruct (Hbad eq_refl [] "/manifest.yaml" [] eq_refl ltac:(constructor)
                ltac:(vm_compute; discriminate)) as (e & He & Hm & _).
    now exists e.
  - pose proof (C4_external_cloud_provider TestValidate.no_rules
                  (doc (ExternalCloudProviderConfig.mk true TestValidate.manifests12))
                  mode (TestValidate.join None) opts) as Hc.
    destruct (Hc eq_refl eq_refl eq_refl eq_refl) as (_ & _ & Hok).
    apply Hok; [reflexivity|].
    repeat constructor.
Defined.

End ValidatorWitnesses.

(** ** [net/url] on plain absolute URLs *)

Section URLFacts.

Import bytes strings url absolute_url.

Lemma all_append (p : ascii -> bool) (a b : string) :
  all p (a +:+ b) = all p a && all p b.
Proof.
  induction a as [|x a IH]; simpl; [reflexivity|].
  now rewrite IH, andb_assoc.
Qed.

Lemma all_impl (p q : ascii -> bool) (s : string) :
  (forall c, p c = true -> q c = true) -> all p s = true -> all q s = true.
Proof.
  intros Hpq. induction s as [|x s IH]; simpl; [reflexivity|].
  intros Hx. apply andb_prop in Hx as [Hx Hs].
  now rewrite (Hpq x Hx), (IH Hs).
Qed.

(** A byte that a class excludes does not occur in a string of the class. *)
Lemma CountByte_excluded (p : ascii -> bool) (x : ascii) (s : string) :
  p x = false -> all p s = true -> CountByte s x = 0.
Proof.
  intros Hx. induction s as [|a s IH]; simpl; [reflexivity|].
  intros Ha. apply andb_prop in Ha as [Ha Hs].
  destruct (Ascii.eqb_spec a x) as [-> | _]; [congruence|].
  now rewrite (IH Hs).
Qed.

Lemma IndexByte_excluded (p : ascii -> bool) (x : ascii) (s : string) :
  p x = false -> all p s = true -> IndexByte s x = -1.
Proof. intros Hx Hs. apply IndexByte_absent. eapply CountByte_excluded; eauto. Qed.

Lemma LastIndexByte_absent (s : string) (c : ascii) :
  CountByte s c = 0 -> LastIndexByte s c = -1.
Proof.
  induction s as [|a s IH]; simpl; [reflexivity|].
  pose proof (CountByte_nonneg s c).
  destruct (Ascii.eqb a c); intros Hc; [lia|].
  now rewrite IH by lia.
Qed.

(** The last [c] of [a ++ c :: b] is right after [a] when [b] has none. *)
Lemma LastIndexByte_last (a b : string) (c : ascii) :
  CountByte b c = 0 -> LastIndexByte (a +:+ String c b) c = len a.
Proof.
  intros Hb. induction a as [|x a IH]; simpl.
  - now rewrite (LastIndexByte_absent b c Hb), Ascii.eqb_refl.
  - rewrite IH, len_cons. pose proof (len_nonneg a).
    destruct (0 <=? len a) eqn:L; [reflexivity | apply Z.leb_gt in L; lia].
Qed.

Lemma unescape_scan_plain (mode : encoding) (s : string) (n : Z) :
  encoding_eqb mode encodeQueryComponent = false ->
  all (plain mode) s = true ->
  unescape_scan s mode n false = Ok (n, false).
Proof.
  intros Hq. induction s as [|c s IH]; simpl; [reflexivity|].
  intros Hc. apply andb_prop in Hc as [Hc Hs].
  unfold plain in Hc. apply andb_prop in Hc as [Hpct Hhost].
  apply negb_true_iff in Hpct, Hhost. rewrite Hpct, Hhost, Hq.
  destruct (Ascii.eqb c "+"); now apply IH.
Qed.

Lemma unescape_plain (mode : encoding) (s : string) :
  encoding_eqb mode encodeQueryComponent = false ->
  all (plain mode) s = true ->
  unescape s mode = Ok s.
Proof.
  intros Hq Hs. unfold unescape.
  now rewrite (unescape_scan_plain mode s 0 Hq Hs).
Qed.

Lemma escape_count_unreserved (mode : encoding) (s : string) :
  all (fun c => negb (shouldEscape c mode)) s = true ->
  escape_count s mode = (0, 0).
Proof.
  induction s as [|c s IH]; simpl; [reflexivity|].
  intros Hc. apply andb_prop in Hc as [Hc Hs].
  apply negb_true_iff in Hc. now rewrite (IH Hs), Hc.
Qed.

(** [escape] returns a string that needs no escaping as it is. *)
Lemma escape_unreserved (mode : encoding) (s : string) :
  all (fun c => negb (shouldEscape c mode)) s = true ->
  escape s mode = s.
Proof.
  intros Hs. unfold escape. now rewrite (escape_count_unreserved mode s Hs).
Qed.

(** Facts about single bytes are settled by running through the 256
    values. *)
Ltac each_byte c :=
  destruct c as [[] [] [] [] [] [] [] []]; vm_compute;
  solve [reflexivity | discriminate | intros; discriminate | intros; reflexivity].

Lemma getscheme_loop_tail (raw rest : string) :
  forall (sch : string) (i : Z),
    all scheme_tail sch = true -> 0 < i ->
    getscheme_loop raw (sch +:+ String ":" rest) i
    = Ok (slice_to raw (i + len sch), slice_from raw (i + len sch + 1)).
Proof.
  induction sch as [|c sch IH]; intros i Hs Hi.
  - change (EmptyString +:+ String ":" rest) with (String ":" rest).
    change (len EmptyString) with 0. rewrite Z.add_0_r.
    change (getscheme_loop raw (String ":" rest) i)
      with (if i =? 0 then @Err (string * string) (errorString "missing protocol scheme")
            else Ok (slice_to raw i, slice_from raw (i + 1))).
    destruct (i =? 0) eqn:E; [apply Z.eqb_eq in E; lia | reflexivity].
  - simpl in Hs. apply andb_prop in Hs as [Hc Hs].
    pose proof (len_nonneg sch).
    assert (Hnext : getscheme_loop raw (String c sch +:+ String ":" rest) i
                    = getscheme_loop raw (sch +:+ String ":" rest) (i + 1)).
    { simpl. unfold scheme_tail in Hc.
      destruct (is_lower c || is_upper c); [reflexivity|].
      simpl in Hc. rewrite Hc.
      destruct (i =? 0) eqn:E; [apply Z.eqb_eq in E; lia | reflexivity]. }
    rewrite Hnext, IH by (assumption || lia).
    rewrite len_cons.
    now replace (i + 1 + len sch) with (i + (len sch + 1)) by lia.
Qed.

(** [getscheme] cuts a well-formed scheme off at its colon. *)
Lemma getscheme_scheme (sch rest : string) :
  absolute_url.scheme_ok sch = true ->
  getscheme (sch +:+ String ":" rest) = Ok (sch, rest).
Proof.
  destruct sch as [|c sch]; [discriminate|]. simpl.
  intros Hs. apply andb_prop in Hs as [Hc Hs].
  unfold getscheme. simpl. rewrite Hc.
  rewrite (getscheme_loop_tail _ rest sch 1 Hs) by lia.
  pose proof (slice_to_append (String c sch) (String ":" rest)) as Ht.
  pose proof (slice_from_append_cons (String c sch) rest ":") as Hf.
  rewrite len_cons in Ht, Hf. simpl in Ht, Hf.
  replace (1 + len sch) with (len sch + 1) by lia.
  now rewrite Ht, Hf.
Qed.

Lemma ToLower_nonempty (sch : string) :
  absolute_url.scheme_ok sch = true -> String.eqb (ToLower sch) "" = false.
Proof. destruct sch; [discriminate | reflexivity]. Qed.

Lemma all_digits_all (d : string) : all_digits d = all is_digit d.
Proof. induction d as [|c d IH]; simpl; [reflexivity | now rewrite IH]. Qed.

Lemma host_byte_plain (c : ascii) :
  host_byte c = true -> plain encodeHost c = true.
Proof. each_byte c. Qed.

Lemma digit_plain (c : ascii) : is_digit c = true -> plain encodeHost c = true.
Proof. each_byte c. Qed.

Lemma host_byte_unreserved (c : ascii) :
  host_byte c = true -> negb (shouldEscape c encodeHost) = true.
Proof. each_byte c. Qed.

Lemma digit_unreserved (c : ascii) :
  is_digit c = true -> negb (shouldEscape c encodeHost) = true.
Proof. each_byte c. Qed.

Section Authority.

Variable p : absolute_url.parts.
Hypothesis Hhost : absolute_url.host_ok (absolute_url.host p) = true.
Hypothesis Hport : absolute_url.port_ok (absolute_url.port p) = true.

Lemma host_bytes : all host_byte (absolute_url.host p) = true.
Proof. unfold absolute_url.host_ok in Hhost. now apply andb_prop in Hhost. Qed.

Lemma hostport_cons :
  exists c t, hostport p = String c t /\ host_byte c = true.
Proof.
  unfold hostport. pose proof host_bytes as Hb.
  unfold absolute_url.host_ok in Hhost. apply andb_prop in Hhost as [Hne _].
  destruct (absolute_url.host p) as [|c t]; [discriminate|].
  simpl in Hb. apply andb_prop in Hb as [Hc _].
  exists c. eexists. split; [reflexivity | exact Hc].
Qed.

(** No byte of the authority is outside the host bytes, [:] and digits. *)
Lemma hostport_excluded (x : ascii) :
  host_byte x = false -> Ascii.eqb x ":" = false ->
  CountByte (hostport p) x = 0.
Proof.
  intros Hx Hcolon. unfold hostport. rewrite CountByte_append.
  rewrite (CountByte_excluded host_byte x _ Hx host_bytes).
  destruct (absolute_url.port p) as [d|]; [|reflexivity].
  change (absolute_url.opt ":" (Some d)) with (String ":" d). cbn [CountByte].
  rewrite Ascii.eqb_sym, Hcolon.
  rewrite (CountByte_excluded (fun c => host_byte c || is_digit c) x d).
  - reflexivity.
  - rewrite Hx. simpl. destruct (is_digit x) eqn:E; [|reflexivity].
    revert Hx E. clear. each_byte x.
  - simpl in Hport. eapply all_impl; [|exact Hport].
    intros c Hc. rewrite Hc. apply orb_true_r.
Qed.

Lemma hostport_plain : all (plain encodeHost) (hostport p) = true.
Proof.
  unfold hostport. rewrite all_append.
  rewrite (all_impl _ _ _ host_byte_plain host_bytes).
  destruct (absolute_url.port p) as [d|]; [|reflexivity].
  simpl in *. change (plain encodeHost ":") with true.
  now rewrite (all_impl _ _ _ digit_plain Hport).
Qed.

Lemma hostport_unreserved :
  all (fun c => negb (shouldEscape c encodeHost)) (hostport p) = true.
Proof.
  unfold hostport. rewrite all_append.
  rewrite (all_impl _ _ _ host_byte_unreserved host_bytes).
  destruct (absolute_url.port p) as [d|]; [|reflexivity].
  simpl in *. change (negb (shouldEscape ":" encodeHost)) with true.
  now rewrite (all_impl _ _ _ digit_unreserved Hport).
Qed.

Lemma parseHost_hostport : parseHost (hostport p) = Ok (hostport p).
Proof.
  unfold parseHost.
  destruct hostport_cons as (c & t & Hct & Hc).
  assert (Hbr : HasPrefix (hostport p) "[" = false).
  { rewrite Hct. cbn [HasPrefix].
    destruct (Ascii.eqb_spec "[" c) as [<- | _]; [discriminate Hc | reflexivity]. }
  rewrite Hbr.
  assert (Hp : negb (LastIndexByte (hostport p) ":" =? -1)
               && negb (validOptionalPort
                          (slice_from (hostport p) (LastIndexByte (hostport p) ":")))
               = false).
  { unfold hostport. destruct (absolute_url.port p) as [d|]; simpl absolute_url.opt.
    - assert (Hd : CountByte d ":" = 0).
      { apply (CountByte_excluded is_digit); [reflexivity | exact Hport]. }
      rewrite (LastIndexByte_last _ d ":" Hd), slice_from_append.
      simpl. rewrite all_digits_all. simpl in Hport. rewrite Hport.
      apply andb_false_r.
    - rewrite append_nil_r.
      rewrite LastIndexByte_absent; [reflexivity|].
      apply (CountByte_excluded host_byte); [reflexivity | exact host_bytes]. }
  rewrite Hp. apply unescape_plain; [reflexivity | exact hostport_plain].
Qed.

Lemma parseAuthority_hostport : parseAuthority (hostport p) = Ok (None, hostport p).
Proof.
  unfold parseAuthority.
  rewrite LastIndexByte_absent by (apply hostport_excluded; reflexivity).
  simpl. now rewrite parseHost_hostport.
Qed.

End Authority.

Lemma path_byte_plain (c : ascii) : path_byte c = true -> plain encodePath c = true.
Proof. each_byte c. Qed.

Lemma path_byte_unreserved (c : ascii) :
  path_byte c = true -> negb (shouldEscape c encodePath) = true.
Proof. each_byte c. Qed.

Lemma path_bytes (path : string) :
  absolute_url.path_ok path = true -> all path_byte path = true.
Proof.
  destruct path as [|c t]; [reflexivity|].
  cbn [absolute_url.path_ok all]. intros Hp. apply andb_prop in Hp as [Hc Ht].
  apply Ascii.eqb_eq in Hc. subst c. exact Ht.
Qed.

Lemma path_shape (path : string) :
  absolute_url.path_ok path = true ->
  path = EmptyString \/ exists t, path = String "/" t.
Proof.
  destruct path as [|c t]; [now left|].
  cbn [absolute_url.path_ok]. intros Hp. apply andb_prop in Hp as [Hc _].
  apply Ascii.eqb_eq in Hc. subst c. right. now exists t.
Qed.

(** [setPath] keeps a path of unreserved bytes and sets no [RawPath]. *)
Lemma setPath_unreserved (path : string) :
  absolute_url.path_ok path = true -> setPath path = Ok (path, EmptyString).
Proof.
  intros Hp. apply path_bytes in Hp. unfold setPath.
  rewrite unescape_plain;
    [| reflexivity | exact (all_impl _ _ _ path_byte_plain Hp)].
  rewrite escape_unreserved by exact (all_impl _ _ _ path_byte_unreserved Hp).
  now rewrite String.eqb_refl.
Qed.

Lemma EscapedPath_unreserved (sch host path rq frag : string) (fq : bool) :
  absolute_url.path_ok path = true ->
  EscapedPath (mkURL sch "" None host path "" fq rq frag) = path.
Proof.
  intros Hp. unfold EscapedPath. cbn [RawPath Path].
  change (negb (String.eqb "" "") && validEncodedPath "") with false. cbv iota.
  assert (Hstar : String.eqb path "*" = false).
  { destruct (path_shape path Hp) as [-> | (t & ->)]; reflexivity. }
  rewrite Hstar. apply escape_unreserved.
  exact (all_impl _ _ _ path_byte_unreserved (path_bytes path Hp)).
Qed.

(** The authority ends where the path begins. *)
Lemma split_authority (hp path : string) :
  CountByte hp "/" = 0 -> absolute_url.path_ok path = true ->
  split (hp +:+ path) "/" false = (hp, path).
Proof.
  intros Hhp Hp. unfold split.
  destruct (path_shape path Hp) as [-> | (t & ->)].
  - rewrite append_nil_r.
    now rewrite (proj2 (IndexByte_absent hp "/") Hhp).
  - rewrite (IndexByte_first hp t "/" Hhp). pose proof (len_nonneg hp).
    destruct (len hp <? 0) eqn:L; [apply Z.ltb_lt in L; lia|].
    now rewrite slice_to_append, slice_from_append.
Qed.

(** On a suffix of one byte, only the last byte of the string counts. *)
Lemma HasSuffix_cons (a c x : ascii) (s : string) :
  HasSuffix (String a (String c s)) (String x "")
  = HasSuffix (String c s) (String x "").
Proof.
  unfold HasSuffix, slice_from. change (len (String x "")) with 1.
  rewrite !len_cons. pose proof (len_nonneg s).
  replace (Z.to_nat (len s + 1 + 1 - 1)) with (S (Z.to_nat (len s + 1 - 1))) by lia.
  cbn [drop].
  destruct (1 <=? len s + 1 + 1) eqn:A; [|apply Z.leb_gt in A; lia].
  destruct (1 <=? len s + 1) eqn:B; [|apply Z.leb_gt in B; lia].
  reflexivity.
Qed.

Lemma HasSuffix_append (a : string) (c x : ascii) (s : string) :
  HasSuffix (a +:+ String c s) (String x "") = HasSuffix (String c s) (String x "").
Proof.
  induction a as [|y a IH]; [reflexivity|].
  destruct a as [|z a]; cbn [String.append] in *.
  - apply HasSuffix_cons.
  - now rewrite HasSuffix_cons.
Qed.

Lemma HasSuffix_counted (s : string) (x : ascii) :
  HasSuffix s (String x "") = true -> 1 <= CountByte s x.
Proof.
  induction s as [|c s IH]; [discriminate|].
  destruct s as [|d s].
  - change (HasSuffix (String c "") (String x ""))
      with (String.eqb (String c "") (String x "")).
    intros E. apply String.eqb_eq in E. injection E as ->.
    cbn [CountByte]. rewrite Ascii.eqb_refl. lia.
  - rewrite HasSuffix_cons. intros E. specialize (IH E).
    cbn [CountByte] in *. destruct (Ascii.eqb c x); lia.
Qed.

(** The query step of [parse]: what is left of [rest], [ForceQuery] and
    [RawQuery]. *)
Lemma query_step (rest1 : string) (query : option string) :
  CountByte rest1 "?" = 0 ->
  let rest0 := rest1 +:+ absolute_url.opt "?" query in
  (if HasSuffix rest0 "?" && (CountByte rest0 "?" =? 1)
   then (slice_to rest0 (len rest0 - 1), true, EmptyString)
   else let '(r, q) := split rest0 "?" true in (r, false, q))
  = (rest1,
     match query with Some EmptyString => true | _ => false end,
     match query with Some q => q | None => EmptyString end).
Proof.
  intros H0 rest0. subst rest0. pose proof (len_nonneg rest1) as Hl.
  destruct query as [[|c q]|]; unfold absolute_url.opt.
  - change ("?" +:+ "") with (String "?" "").
    assert (Hs : HasSuffix (rest1 +:+ String "?" "") "?" = true).
    { unfold HasSuffix. rewrite len_append. change (len "?") with 1.
      replace (len rest1 + 1 - 1) with (len rest1) by lia.
      rewrite slice_from_append.
      destruct (1 <=? len rest1 + 1) eqn:A; [reflexivity | apply Z.leb_gt in A; lia]. }
    rewrite Hs, CountByte_append, H0. cbn [CountByte andb].
    rewrite Ascii.eqb_refl. cbn.
    rewrite len_append. change (len "?") with 1.
    replace (len rest1 + 1 - 1) with (len rest1) by lia.
    now rewrite slice_to_append.
  - change ("?" +:+ String c q) with (String "?" (String c q)).
    assert (Hc : HasSuffix (rest1 +:+ String "?" (String c q)) "?"
                 && (CountByte (rest1 +:+ String "?" (String c q)) "?" =? 1) = false).
    { rewrite CountByte_append, H0.
      change (String "?" (String c q)) with ("?" +:+ String c q).
      rewrite <- append_assoc, HasSuffix_append.
      destruct (HasSuffix (String c q) "?") eqn:E; [|reflexivity].
      apply HasSuffix_counted in E. cbn [andb]. apply Z.eqb_neq.
      cbn [String.append CountByte] in *. rewrite Ascii.eqb_refl. lia. }
    rewrite Hc. unfold split. rewrite (IndexByte_first rest1 _ "?" H0).
    destruct (len rest1 <? 0) eqn:L; [apply Z.ltb_lt in L; lia|].
    now rewrite slice_to_append, slice_from_append_cons.
  - rewrite append_nil_r, H0. rewrite andb_false_r.
    unfold split. now rewrite (proj2 (IndexByte_absent rest1 "?") H0).
Qed.

(** [parse] on a string whose steps are known: scheme, query, authority
    and path. *)
Lemma parse_steps (u sch rest0 rest1 hp path rq : string) (fq : bool) :
  stringContainsCTLByte u = false ->
  String.eqb u "" = false ->
  String.eqb u "*" = false ->
  getscheme u = Ok (sch, rest0) ->
  String.eqb (ToLower sch) "" = false ->
  (if HasSuffix rest0 "?" && (CountByte rest0 "?" =? 1)
   then (slice_to rest0 (len rest0 - 1), true, EmptyString)
   else let '(r, q) := split rest0 "?" true in (r, false, q)) = (rest1, fq, rq) ->
  HasPrefix rest1 "//" = true ->
  split (slice_from rest1 2) "/" false = (hp, path) ->
  parseAuthority hp = Ok (None, hp) ->
  setPath path = Ok (path, EmptyString) ->
  parse u false = Ok (mkURL (ToLower sch) "" None hp path "" fq rq "").
Proof.
  intros Hctl Hne Hstar Hsch Hlow Hq Hpre Hsplit Hauth Hpath.
  assert (Hpre1 : HasPrefix rest1 "/" = true).
  { destruct rest1 as [|a r]; [discriminate|]. cbn [HasPrefix] in *.
    apply andb_prop in Hpre as [Ha _]. rewrite Ha. now destruct r. }
  unfold parse. rewrite Hctl, Hne, Hstar, Hsch. cbn [andb].
  rewrite Hq. cbv beta iota. rewrite Hpre1, Hlow, Hpre. cbn [negb andb orb].
  rewrite Hsplit. cbv beta iota. rewrite Hauth. cbv beta iota.
  now rewrite Hpath.
Qed.

(** [URL.String] on the URL of a plain absolute URL string. *)
Lemma URL_String_plain (sch hp path rq frag : string) (fq : bool) :
  String.eqb sch "" = false ->
  String.eqb hp "" = false ->
  escape hp encodeHost = hp ->
  absolute_url.path_ok path = true ->
  URL_String (mkURL sch "" None hp path "" fq rq frag)
  = sch +:+ "://" +:+ hp +:+ path
    +:+ (if fq || negb (String.eqb rq "") then "?" +:+ rq else "")
    +:+ (if negb (String.eqb frag "") then "#" +:+ escape frag encodeFragment
         else "").
Proof.
  intros Hsch Hhp Hesc Hp. unfold URL_String.
  rewrite (EscapedPath_unreserved sch hp path rq frag fq Hp).
  cbn [Scheme Opaque User Host Path ForceQuery RawQuery Fragment is_Some_b].
  rewrite Hsch, Hhp, Hesc. cbn [negb orb andb].
  change (String.eqb "" "") with true. cbn [negb].
  assert (Hslash : negb (String.eqb path "") && negb (HasPrefix path "/") = false).
  { destruct (path_shape path Hp) as [-> | (t & ->)]; reflexivity. }
  rewrite Hslash. cbn [andb].
  assert (Hlen : (len (((sch +:+ ":") +:+ "//") +:+ hp) =? 0) = false).
  { apply Z.eqb_neq. rewrite !len_append.
    pose proof (len_nonneg sch). pose proof (len_nonneg hp).
    change (len ":") with 1. change (len "//") with 2. lia. }
  rewrite Hlen.
  destruct (fq || negb (String.eqb rq "")), (negb (String.eqb frag ""));
    rewrite ?append_assoc, ?append_nil_r; reflexivity.
Qed.

Lemma scheme_tail_url_byte (c : ascii) : scheme_tail c = true -> url_byte c = true.
Proof. each_byte c. Qed.

Lemma host_byte_url_byte (c : ascii) : host_byte c = true -> url_byte c = true.
Proof. each_byte c. Qed.

Lemma digit_url_byte (c : ascii) : is_digit c = true -> url_byte c = true.
Proof. each_byte c. Qed.

Lemma path_byte_url_byte (c : ascii) : path_byte c = true -> url_byte c = true.
Proof. each_byte c. Qed.

Lemma no_CTL_byte (s : string) :
  all url_byte s = true -> stringContainsCTLByte s = false.
Proof.
  induction s as [|c s IH]; [reflexivity|].
  cbn [all stringContainsCTLByte]. intros Hc. apply andb_prop in Hc as [Hc Hs].
  unfold url_byte in Hc. apply andb_prop in Hc as [_ Hc].
  apply negb_true_iff in Hc. change (code " ") with 32.
  now rewrite Hc, (IH Hs).
Qed.

Lemma fragment_byte_plain (c : ascii) :
  fragment_byte c = true -> plain encodeFragment c = true.
Proof. each_byte c. Qed.

Lemma fragment_byte_unreserved (c : ascii) :
  fragment_byte c = true -> negb (shouldEscape c encodeFragment) = true.
Proof. each_byte c. Qed.

Lemma letter_not_star (c : ascii) :
  is_lower c || is_upper c = true -> Ascii.eqb c "*" = false.
Proof. each_byte c. Qed.

Lemma letter_scheme_tail (c : ascii) :
  is_lower c || is_upper c = true -> scheme_tail c = true.
Proof. each_byte c. Qed.

Lemma render_before_fragment (p : absolute_url.parts) :
  absolute_url.render p
  = before_fragment p +:+ absolute_url.opt "#" (absolute_url.fragment p).
Proof.
  unfold absolute_url.render, before_fragment, hier_part, hostport.
  rewrite !append_assoc. cbn [String.append]. now rewrite !append_assoc.
Qed.

Section PlainURL.

Variable p : absolute_url.parts.
Hypothesis Hwf : absolute_url.well_formed p = true.

Lemma well_formed_parts :
  absolute_url.scheme_ok (absolute_url.scheme p) = true
  /\ absolute_url.host_ok (absolute_url.host p) = true
  /\ absolute_url.port_ok (absolute_url.port p) = true
  /\ absolute_url.path_ok (absolute_url.path p) = true
  /\ absolute_url.query_ok (absolute_url.query p) = true
  /\ absolute_url.fragment_ok (absolute_url.fragment p) = true.
Proof.
  unfold absolute_url.well_formed in Hwf.
  repeat (apply andb_prop in Hwf as [Hwf ?]). tauto.
Qed.

Lemma scheme_bytes : all scheme_tail (absolute_url.scheme p) = true.
Proof.
  destruct well_formed_parts as (Hs & _).
  destruct (absolute_url.scheme p) as [|c t]; [discriminate|].
  cbn [absolute_url.scheme_ok all] in *. apply andb_prop in Hs as [Hc Ht].
  now rewrite (letter_scheme_tail c Hc).
Qed.

Lemma hostport_url_bytes : all url_byte (hostport p) = true.
Proof.
  destruct well_formed_parts as (_ & Hh & Hpo & _).
  unfold hostport. rewrite all_append.
  rewrite (all_impl _ _ _ host_byte_url_byte (host_bytes p Hh)).
  destruct (absolute_url.port p) as [d|]; [|reflexivity].
  cbn [absolute_url.opt String.append all absolute_url.port_ok] in *.
  change (url_byte ":") with true.
  now rewrite (all_impl _ _ _ digit_url_byte Hpo).
Qed.

Lemma before_fragment_url_bytes : all url_byte (before_fragment p) = true.
Proof.
  destruct well_formed_parts as (_ & _ & _ & Hpa & Hq & _).
  unfold before_fragment, hier_part.
  rewrite all_append, (all_impl _ _ _ scheme_tail_url_byte scheme_bytes).
  cbn [all String.append andb]. change (url_byte ":") with true.
  change (url_byte "/") with true. cbn [andb].
  rewrite !all_append, hostport_url_bytes.
  rewrite (all_impl _ _ _ path_byte_url_byte (path_bytes _ Hpa)).
  destruct (absolute_url.query p) as [q|]; [|reflexivity].
  cbn [absolute_url.opt String.append all andb]. exact Hq.
Qed.

Lemma hier_part_no_query : CountByte (hier_part p) "?" = 0.
Proof.
  destruct well_formed_parts as (_ & Hh & Hpo & Hpa & _).
  unfold hier_part. cbn [String.append CountByte].
  change (Ascii.eqb "/" "?") with false. cbv iota.
  rewrite CountByte_append.
  rewrite (hostport_excluded p Hh Hpo "?") by reflexivity.
  now rewrite (CountByte_excluded path_byte "?" _ eq_refl (path_bytes _ Hpa)).
Qed.

(** [parse] on the URL up to its fragment. *)
Lemma parse_before_fragment :
  parse (before_fragment p) false
  = Ok (mkURL (ToLower (absolute_url.scheme p)) "" None (hostport p)
              (absolute_url.path p) ""
              match absolute_url.query p with Some EmptyString => true | _ => false end
              match absolute_url.query p with Some q => q | None => EmptyString end
              "").
Proof.
  destruct well_formed_parts as (Hs & Hh & Hpo & Hpa & Hq & _).
  apply (parse_steps _ (absolute_url.scheme p)
           (hier_part p +:+ absolute_url.opt "?" (absolute_url.query p))
           (hier_part p)).
  - apply no_CTL_byte, before_fragment_url_bytes.
  - unfold before_fragment. now destruct (absolute_url.scheme p).
  - unfold before_fragment.
    destruct (absolute_url.scheme p) as [|c t]; [discriminate|].
    cbn [absolute_url.scheme_ok] in Hs. apply andb_prop in Hs as [Hc _].
    cbn [String.append String.eqb]. now rewrite (letter_not_star c Hc).
  - now apply getscheme_scheme.
  - now apply ToLower_nonempty.
  - apply query_step, hier_part_no_query.
  - reflexivity.
  - change (slice_from (hier_part p) 2) with (hostport p +:+ absolute_url.path p).
    apply split_authority; [|exact Hpa].
    now apply hostport_excluded.
  - now apply parseAuthority_hostport.
  - now apply setPath_unreserved.
Qed.

Lemma before_fragment_no_hash : CountByte (before_fragment p) "#" = 0.
Proof.
  apply (CountByte_excluded url_byte); [reflexivity|].
  apply before_fragment_url_bytes.
Qed.

(** [Parse] on the whole string, and [URL.String] on its result. *)
Lemma Parse_String_plain :
  exists u, Parse (absolute_url.render p) = inl u
            /\ URL_String u = absolute_url.canonical p.
Proof.
  destruct well_formed_parts as (Hs & Hh & Hpo & Hpa & Hq & Hf).
  assert (Hhp : String.eqb (hostport p) "" = false).
  { destruct (hostport_cons p Hh) as (c & t & -> & _). reflexivity. }
  pose proof (escape_unreserved _ _ (hostport_unreserved p Hh Hpo)) as Hesc.
  pose proof (ToLower_nonempty _ Hs) as Hlow.
  pose proof (len_nonneg (before_fragment p)) as Hlen.
  assert (Hcanon : forall frag,
            URL_String (mkURL (ToLower (absolute_url.scheme p)) "" None (hostport p)
                          (absolute_url.path p) ""
                          match absolute_url.query p with
                          | Some EmptyString => true | _ => false end
                          match absolute_url.query p with
                          | Some q => q | None => EmptyString end
                          frag)
            = ToLower (absolute_url.scheme p) +:+ "://" +:+ absolute_url.host p
              +:+ absolute_url.opt ":" (absolute_url.port p) +:+ absolute_url.path p
              +:+ absolute_url.opt "?" (absolute_url.query p)
              +:+ (if negb (String.eqb frag "")
                   then "#" +:+ escape frag encodeFragment else "")).
  { intros frag. rewrite (URL_String_plain _ _ _ _ _ _ Hlow Hhp Hesc Hpa).
    unfold hostport. rewrite !append_assoc.
    now destruct (absolute_url.query p) as [[|c q]|]. }
  unfold Parse. rewrite render_before_fragment. unfold split.
  destruct (absolute_url.fragment p) as [f|] eqn:Ef.
  - cbn [absolute_url.opt String.append].
    rewrite (IndexByte_first _ f "#" before_fragment_no_hash).
    destruct (len (before_fragment p) <? 0) eqn:L; [apply Z.ltb_lt in L; lia|].
    rewrite slice_to_append, slice_from_append_cons, parse_before_fragment.
    cbn [absolute_url.fragment_ok] in Hf. apply andb_prop in Hf as [Hne Hfb].
    unfold absolute_url.nonempty in Hne. apply negb_true_iff in Hne.
    rewrite Hne.
    rewrite unescape_plain;
      [| reflexivity | exact (all_impl _ _ _ fragment_byte_plain Hfb)].
    eexists. split; [reflexivity|].
    unfold with_Fragment.
    cbn [Scheme Opaque User Host Path RawPath ForceQuery RawQuery].
    rewrite Hcanon, Hne. cbn [negb].
    rewrite (escape_unreserved encodeFragment f)
      by exact (all_impl _ _ _ fragment_byte_unreserved Hfb).
    unfold absolute_url.canonical, absolute_url.render.
    cbn [absolute_url.scheme absolute_url.host absolute_url.port absolute_url.path
         absolute_url.query absolute_url.fragment].
    now rewrite Ef.
  - cbn [absolute_url.opt]. rewrite append_nil_r.
    rewrite (proj2 (IndexByte_absent _ "#") before_fragment_no_hash).
    cbn. rewrite parse_before_fragment.
    eexists. split; [reflexivity|].
    rewrite Hcanon. cbn [String.eqb negb].
    unfold absolute_url.canonical, absolute_url.render.
    cbn [absolute_url.scheme absolute_url.host absolute_url.port absolute_url.path
         absolute_url.query absolute_url.fragment].
    now rewrite Ef.
Qed.

End PlainURL.

(** [ToLower] leaves a string without upper-case letters as it is. *)
Lemma ToLower_lower (s : string) :
  all (fun c => negb (is_upper c)) s = true -> ToLower s = s.
Proof.
  induction s as [|c s IH]; [reflexivity|].
  cbn [all ToLower]. intros Hc. apply andb_prop in Hc as [Hc Hs].
  apply negb_true_iff in Hc. unfold lower_byte. now rewrite Hc, (IH Hs).
Qed.

End URLFacts.

(** ** The round trip of [Endpoint] *)


(** Two more strings that do not come back as they went in: an empty
    fragment and an empty authority are dropped. *)
Lemma Endpoint_round_trip_drops_empty_parts :
  (exists u, url.Parse "http://a#" = inl u /\ url.URL_String u = "http://a")
  /\ (exists u, url.Parse "http://" = inl u /\ url.URL_String u = "http:").
Proof. split; eexists; split; reflexivity. Qed.



(** * Further properties of [cluster_config.go] *)

(** ** Certificate SANs: write, then read *)

Section CertSANsFacts.

Import ClusterConfig.

(** X1: [SetCertSANs] followed by [CertSANs] never panics and returns
    what [CertSANs] returned before the call, followed by the new SANs in
    order; where [CertSANs] panicked before (nil [APIServer]) it now
    returns the new SANs alone. *)
Theorem X1_CertSANs_after_SetCertSANs (c : ClusterConfig.t) (sans : list string) :
  exists c',
    SetCertSANs c sans = Return c'
    /\ CertSANs c' = Return (match CertSANs c with
                              | Return old => old ++ sans
                              | Panic _ => sans
                              end).
Proof.
  unfold SetCertSANs, CertSANs.
  destruct (APIServer c) as [a|] eqn:Ha; cbn; rewrite ?Ha; cbn;
    eexists; split; reflexivity.
Qed.

(** X2: two calls of [SetCertSANs] in a row amount to one call with the
    two lists concatenated: nothing is removed, reordered or
    deduplicated in between. *)
Theorem X2_SetCertSANs_twice (c : ClusterConfig.t) (sans1 sans2 : list string) :
  (c1 <- SetCertSANs c sans1 ;; SetCertSANs c1 sans2)
  = SetCertSANs c (sans1 ++ sans2).
Proof.
  destruct c as [cp name net tok key aes ca api cm sch etcd].
  destruct api as [[img args old]|]; cbn; unfold set_APIServer, set_CertSANs; cbn.
  - now rewrite <- app_assoc.
  - reflexivity.
Qed.

(** X3: [SetCertSANs] with no SANs leaves the struct as it is exactly
    when [APIServer] is non-nil; on a nil [APIServer] it still allocates
    an empty [APIServerConfig]. *)
Theorem X3_SetCertSANs_nothing (c : ClusterConfig.t) :
  (SetCertSANs c [] = Return c <-> APIServer c <> None)
  /\ (APIServer c = None ->
      SetCertSANs c [] = Return (set_APIServer c (Some APIServerConfig.zero))).
Proof.
  destruct c as [cp name net tok key aes ca api cm sch etcd].
  destruct api as [[img args old]|]; cbn; unfold set_APIServer, set_CertSANs; cbn.
  - rewrite app_nil_r. split; [split; [discriminate | reflexivity] | discriminate].
  - split; [split; [discriminate | congruence] | reflexivity].
Qed.

(** X3 at a struct with one SAN and at the zero struct. *)
Lemma X3_SetCertSANs_nothing_witness :
  let a := APIServerConfig.mk "" ∅ ["10.0.0.1"] in
  let c := set_APIServer ClusterConfig.zero (Some a) in
  SetCertSANs c [] = Return c
  /\ SetCertSANs ClusterConfig.zero []
     = Return (set_APIServer ClusterConfig.zero (Some APIServerConfig.zero)).
Proof.
  intros a c. split.
  - apply (X3_SetCertSANs_nothing c). discriminate.
  - apply (X3_SetCertSANs_nothing ClusterConfig.zero). reflexivity.
Defined.

Variables DefaultCNI DefaultPodCIDR DefaultServiceCIDR : string.

(** X4: [SetCertSANs] changes the result of no other accessor:
    [Version], [Endpoint], [LocalAPIServerPort], [CA],
    [AESCBCEncryptionSecret], [Etcd], [ID], [Secret], [CNI], [PodCIDR]
    and [ServiceCIDR] return (or panic) after the call as before it. *)
Theorem X4_SetCertSANs_keeps_accessors (c : ClusterConfig.t) (sans : list string) :
  exists c',
    SetCertSANs c sans = Return c'
    /\ Version c' = Version c
    /\ Endpoint c' = Endpoint c
    /\ LocalAPIServerPort c' = LocalAPIServerPort c
    /\ CA c' = CA c
    /\ AESCBCEncryptionSecret c' = AESCBCEncryptionSecret c
    /\ Etcd c' = Etcd c
    /\ ID c' = ID c
    /\ Secret c' = Secret c
    /\ CNI DefaultCNI c' = CNI DefaultCNI c
    /\ PodCIDR DefaultPodCIDR c' = PodCIDR DefaultPodCIDR c
    /\ ServiceCIDR DefaultServiceCIDR c' = ServiceCIDR DefaultServiceCIDR c.
Proof.
  destruct c as [cp name net tok key aes ca api cm sch etcd].
  destruct api as [a|]; cbn [SetCertSANs APIServer is_nil deref bind];
    eexists; (split; [reflexivity|]); repeat split.
Qed.

End CertSANsFacts.

(** ** Panics and defaults of the accessors *)

Section AccessorEdges.

Import ClusterConfig.

(** X5: [LocalAPIServerPort] never returns 0: whatever it returns is the
    nonzero field or 6443. *)
Theorem X5_LocalAPIServerPort_nonzero (c : ClusterConfig.t) (port : Z) :
  LocalAPIServerPort c = Return port ->
  port <> 0
  /\ exists cp, ControlPlane c = Some cp
                /\ (port = ControlPlaneConfig.LocalAPIServerPort cp \/ port = 6443).
Proof.
  unfold LocalAPIServerPort. destruct (ControlPlane c) as [cp|]; cbn; [|discriminate].
  destruct (ControlPlaneConfig.LocalAPIServerPort cp =? 0) eqn:E;
    intros H; injection H as <-.
  - split; [lia | exists cp; auto].
  - apply Z.eqb_neq in E. split; [exact E | exists cp; auto].
Qed.

(** X5 at a control plane whose port is unset. *)
Lemma X5_LocalAPIServerPort_nonzero_witness :
  LocalAPIServerPort
    (mk (Some (ControlPlaneConfig.mk "" None 0)) "" None "" "" "" None None None
        None None) = Return 6443
  /\ 6443 <> 0.
Proof.
  split; [reflexivity|].
  apply (X5_LocalAPIServerPort_nonzero
           (mk (Some (ControlPlaneConfig.mk "" None 0)) "" None "" "" "" None None
               None None None) 6443 eq_refl).
Defined.

Lemma returns_iff_Some {A B : Type} (p : option A) (k : A -> go B) :
  (forall a, returns (k a)) ->
  (returns (a <- deref p ;; k a) <-> p <> None).
Proof.
  intros Hk. destruct p as [a|]; cbn.
  - split; [discriminate | intros _; apply Hk].
  - split; [intros Hr; destruct (panic_not_returns _ Hr) | congruence].
Qed.

(** X6: the accessors without a nil guard panic exactly on the nil
    pointer they read through: [Version] and [LocalAPIServerPort] return
    if and only if [ControlPlane] is non-nil, [Endpoint] if and only if
    [ControlPlane] and its [Endpoint] are non-nil (the URL pointer it
    returns may itself be nil), [CertSANs] if and only if [APIServer] is
    non-nil; otherwise the panic is a nil dereference. *)
Theorem X6_unguarded_accessors (c : ClusterConfig.t) :
  (returns (Version c) <-> ControlPlane c <> None)
  /\ (returns (LocalAPIServerPort c) <-> ControlPlane c <> None)
  /\ (returns (Endpoint c)
      <-> exists cp e, ControlPlane c = Some cp
                       /\ ControlPlaneConfig.Endpoint cp = Some e)
  /\ (forall cp e, ControlPlane c = Some cp ->
                   ControlPlaneConfig.Endpoint cp = Some e ->
                   Endpoint c = Return (Endpoint.URL e))
  /\ (returns (CertSANs c) <-> APIServer c <> None)
  /\ (ControlPlane c = None ->
      Version c = Panic NilDereference
      /\ LocalAPIServerPort c = Panic NilDereference
      /\ Endpoint c = Panic NilDereference)
  /\ (APIServer c = None -> CertSANs c = Panic NilDereference).
Proof.
  split; [|split; [|split; [|split; [|split; [|split]]]]].
  - apply returns_iff_Some. intros cp. apply returns_Return.
  - unfold LocalAPIServerPort.
    destruct (ControlPlane c) as [cp|] eqn:Hcp; cbn.
    + split; [discriminate|]. intros _.
      destruct (ControlPlaneConfig.LocalAPIServerPort cp =? 0);
        apply returns_Return.
    + split; [intros Hr; destruct (panic_not_returns _ Hr) | congruence].
  - unfold Endpoint. destruct (ControlPlane c) as [cp|]; cbn.
    + destruct (ControlPlaneConfig.Endpoint cp) as [e|] eqn:He; cbn.
      * split; [intros _; now exists cp, e | intros _; apply returns_Return].
      * split; [intros Hr; destruct (panic_not_returns _ Hr)|].
        intros (cp' & e & E & He'). injection E as <-. congruence.
    + split; [intros Hr; destruct (panic_not_returns _ Hr)|].
      intros (cp' & e & E & _). discriminate E.
  - intros cp e Hcp He. unfold Endpoint. rewrite Hcp. cbn. now rewrite He.
  - apply returns_iff_Some. intros a. apply returns_Return.
  - intros Hcp. unfold Version, LocalAPIServerPort, Endpoint. now rewrite Hcp.
  - intros Ha. unfold CertSANs. now rewrite Ha.
Qed.

(** X6 at a struct with a control plane and an endpoint but no API
    server. *)
Lemma X6_unguarded_accessors_witness :
  let e := Endpoint.mk None in
  let c := mk (Some (ControlPlaneConfig.mk "v1.17.0" (Some e) 0)) "" None "" "" ""
              None None None None None in
  returns (Version c) /\ Endpoint c = Return None
  /\ CertSANs c = Panic NilDereference.
Proof.
  intros e c.
  pose proof (X6_unguarded_accessors c) as (Hv & _ & _ & He & _ & _ & Hs).
  split; [apply Hv; discriminate|].
  split; [apply (He _ e eq_refl eq_refl) | apply Hs; reflexivity].
Defined.

Variables DefaultCNI DefaultPodCIDR DefaultServiceCIDR : string.

(** X10: with a non-empty default, [CNI] never returns the empty string;
    [PodCIDR] and [ServiceCIDR] have no such guarantee, since an empty
    first element of the subnet sequence is returned as it is, not
    replaced by the default. *)
Theorem X10_CNI_never_empty (c : ClusterConfig.t) :
  DefaultCNI <> "" ->
  (exists v, CNI DefaultCNI c = Return v /\ v <> "")
  /\ (forall n rest,
        ClusterNetwork c = Some n ->
        ClusterNetworkConfig.PodSubnet n = "" :: rest ->
        PodCIDR DefaultPodCIDR c = Return "")
  /\ (forall n rest,
        ClusterNetwork c = Some n ->
        ClusterNetworkConfig.ServiceSubnet n = "" :: rest ->
        ServiceCIDR DefaultServiceCIDR c = Return "").
Proof.
  intros Hd. rewrite CNI_value, PodCIDR_value, ServiceCIDR_value.
  split; [|split].
  - eexists. split; [reflexivity|].
    destruct (ClusterNetwork c) as [n|]; [|exact Hd].
    destruct (String.eqb (ClusterNetworkConfig.CNI n) "") eqn:E; [exact Hd|].
    now apply String.eqb_neq.
  - intros n rest -> ->. reflexivity.
  - intros n rest -> ->. reflexivity.
Qed.

End AccessorEdges.

(** X10 at a network whose CNI is unset and whose first pod subnet is
    empty. *)
Lemma X10_CNI_never_empty_witness :
  let n := ClusterNetworkConfig.mk "" "cluster.local" [""; "10.0.0.0/16"] [] in
  let c := ClusterConfig.mk None "" (Some n) "" "" "" None None None None None in
  (exists v, ClusterConfig.CNI "flannel" c = Return v /\ v <> "")
  /\ ClusterConfig.PodCIDR "10.244.0.0/16" c = Return "".
Proof.
  intros n c.
  destruct (X10_CNI_never_empty "flannel" "10.244.0.0/16" "10.96.0.0/12" c)
    as (Hcni & Hpod & _); [discriminate|].
  split; [exact Hcni | apply (Hpod n ["10.0.0.0/16"]); reflexivity].
Defined.

(** ** The bootstrap token and [strings.Split] *)

Section TokenFacts.

Import bytes strings ClusterConfig.

(** A string with exactly one [c] is cut by it into two strings without. *)
Lemma CountByte_one_cut (s : string) (c : ascii) :
  CountByte s c = 1 ->
  exists a b, s = a +:+ String c b /\ CountByte a c = 0 /\ CountByte b c = 0.
Proof.
  intros H1. destruct (IndexByte_range s c) as [R | R].
  - apply IndexByte_absent in R. lia.
  - destruct (IndexByte_cut s c ltac:(lia)) as [Hs Ha].
    exists (slice_to s (IndexByte s c)), (slice_from s (IndexByte s c + 1)).
    split; [exact Hs|]. split; [exact Ha|].
    pose proof (f_equal (fun x => CountByte x c) Hs) as Hc. cbv beta in Hc.
    rewrite CountByte_append in Hc. cbn [CountByte] in Hc.
    rewrite Ascii.eqb_refl in Hc. lia.
Qed.

Lemma ID_Secret_one_dot (c : ClusterConfig.t) (a b : string) :
  BootstrapToken c = a +:+ String "." b ->
  CountByte a "." = 0 -> CountByte b "." = 0 ->
  ID c = Return a /\ Secret c = Return b.
Proof.
  intros Ht Ha Hb.
  assert (Hp : Split (BootstrapToken c) "." = [a; b]).
  { rewrite Ht. now apply Split_two. }
  destruct (ID_cases c) as [I2 _]. destruct (Secret_cases c) as [S2 _].
  rewrite I2, S2 by now rewrite Hp. now rewrite Hp.
Qed.

Lemma ID_Secret_other (c : ClusterConfig.t) :
  CountByte (BootstrapToken c) "." <> 1 ->
  ID c = Return "" /\ Secret c = Return "".
Proof.
  intros Hc.
  assert (Hl : length (Split (BootstrapToken c) ".") <> 2%nat).
  { pose proof (Split_length (BootstrapToken c) "."). lia. }
  destruct (ID_cases c) as [_ In]. destruct (Secret_cases c) as [_ Sn].
  now rewrite In, Sn.
Qed.

(** X7: a token with exactly one dot is put back together from its two
    accessors: [BootstrapToken = ID + "." + Secret], and neither part
    holds a dot. *)
Theorem X7_token_rebuilt (c : ClusterConfig.t) :
  CountByte (BootstrapToken c) "." = 1 ->
  exists id secret,
    ID c = Return id /\ Secret c = Return secret
    /\ BootstrapToken c = id +:+ "." +:+ secret
    /\ CountByte id "." = 0 /\ CountByte secret "." = 0.
Proof.
  intros H1. destruct (CountByte_one_cut _ _ H1) as (a & b & Ht & Ha & Hb).
  destruct (ID_Secret_one_dot c a b Ht Ha Hb) as [Hi Hs].
  exists a, b. repeat split; assumption.
Qed.

(** X7 at a token whose secret is empty. *)
Lemma X7_token_rebuilt_witness :
  exists id secret,
    ID (mk None "" None "abc123." "" "" None None None None None) = Return id
    /\ Secret (mk None "" None "abc123." "" "" None None None None None)
       = Return secret
    /\ "abc123." = id +:+ "." +:+ secret.
Proof.
  destruct (X7_token_rebuilt
              (mk None "" None "abc123." "" "" None None None None None) eq_refl)
    as (id & secret & Hi & Hs & Ht & _).
  now exists id, secret.
Defined.

(** X8: whatever [ID] and [Secret] return holds no dot, and a non-empty
    [ID] or [Secret] means that the token has exactly one dot; both are
    empty for every other token. *)
Theorem X8_ID_Secret_dot_free (c : ClusterConfig.t) (id secret : string) :
  ID c = Return id -> Secret c = Return secret ->
  CountByte id "." = 0 /\ CountByte secret "." = 0
  /\ (id <> "" \/ secret <> "" -> CountByte (BootstrapToken c) "." = 1).
Proof.
  intros Hi Hs.
  destruct (Z.eq_dec (CountByte (BootstrapToken c) ".") 1) as [H1 | Hn].
  - destruct (CountByte_one_cut _ _ H1) as (a & b & Ht & Ha & Hb).
    destruct (ID_Secret_one_dot c a b Ht Ha Hb) as [Hi' Hs'].
    rewrite Hi' in Hi. rewrite Hs' in Hs.
    injection Hi as <-. injection Hs as <-. auto.
  - destruct (ID_Secret_other c Hn) as [Hi' Hs'].
    rewrite Hi' in Hi. rewrite Hs' in Hs.
    injection Hi as <-. injection Hs as <-.
    split; [reflexivity|]. split; [reflexivity|]. intros [E | E]; congruence.
Qed.

(** X8 at a token with two dots. *)
Lemma X8_ID_Secret_dot_free_witness :
  ID (mk None "" None "a.b.c" "" "" None None None None None) = Return ""
  /\ CountByte "" "." = 0.
Proof.
  split; [reflexivity|].
  apply (X8_ID_Secret_dot_free
           (mk None "" None "a.b.c" "" "" None None None None None) "" ""
           eq_refl eq_refl).
Defined.

Lemma genSplit_loop_parts (n : nat) : forall (s : string) (c : ascii),
  CountByte s c = Z.of_nat n ->
  Forall (fun part => CountByte part c = 0) (genSplit_loop n s c)
  /\ String.concat (String c "") (genSplit_loop n s c) = s.
Proof.
  induction n as [|n IH]; intros s c Hn.
  - cbn. split; [now constructor | reflexivity].
  - cbn [genSplit_loop].
    destruct (IndexByte_range s c) as [R | R].
    { apply IndexByte_absent in R. lia. }
    destruct (IndexByte s c <? 0) eqn:L; [apply Z.ltb_lt in L; lia|].
    destruct (IndexByte_cut s c ltac:(lia)) as [Hs H0].
    set (a := slice_to s (IndexByte s c)) in *.
    set (b := slice_from s (IndexByte s c + 1)) in *.
    assert (Hb : CountByte b c = Z.of_nat n).
    { pose proof (f_equal (fun x => CountByte x c) Hs) as Hc. cbv beta in Hc.
      rewrite CountByte_append in Hc. cbn [CountByte] in Hc.
      rewrite Ascii.eqb_refl in Hc. lia. }
    destruct (IH b c Hb) as [Hall Hcat]. split; [now constructor|].
    cbn [String.concat].
    destruct (genSplit_loop n b c) as [|x l] eqn:El.
    + destruct n; cbn in El; [discriminate|].
      destruct (IndexByte b c <? 0); discriminate.
    + rewrite Hcat. symmetry. exact Hs.
Qed.

(** X9: [strings.Split], as [ID] and [Secret] call it, loses nothing:
    it returns at least one part, no part holds the separator, and the
    parts joined by the separator are the string that was split. *)
Theorem X9_Split_parts (s : string) (sep : ascii) :
  Split s sep <> []
  /\ Z.of_nat (length (Split s sep)) = CountByte s sep + 1
  /\ Forall (fun part => CountByte part sep = 0) (Split s sep)
  /\ String.concat (String sep "") (Split s sep) = s.
Proof.
  pose proof (CountByte_nonneg s sep) as H0.
  pose proof (Split_length s sep) as Hl.
  destruct (genSplit_loop_parts (Z.to_nat (CountByte s sep)) s sep ltac:(lia))
    as [Hall Hcat].
  split; [|split; [exact Hl | split; [exact Hall | exact Hcat]]].
  intros E. rewrite E in Hl. cbn in Hl. lia.
Qed.

End TokenFacts.

(** * Further properties of [Endpoint] *)

Section EndpointFacts.

Import bytes strings url.

(** Facts about single bytes are settled by running through the 256
    values. *)
Ltac every_byte c :=
  destruct c as [[] [] [] [] [] [] [] []]; vm_compute;
  solve [reflexivity | discriminate | intros; discriminate | intros; reflexivity
        | repeat split ].

(** X11: [UnmarshalYAML] is all or nothing: when it returns an error the
    endpoint is left as it was; when it returns none, the endpoint holds
    a URL, does not depend on what it held before, and [MarshalYAML] on
    it returns a value.  [MarshalYAML] on an endpoint that never got a
    URL panics on the nil pointer. *)
Theorem X11_UnmarshalYAML_all_or_nothing {E : Type} (e e' : Endpoint.t)
  (input : string + E) (err : option (Endpoint.error E)) :
  Endpoint.UnmarshalYAML e input = (e', err) ->
  (err <> None -> e' = e)
  /\ (err = None ->
      Endpoint.URL e' <> None
      /\ returns (Endpoint.MarshalYAML e')
      /\ forall e0, Endpoint.UnmarshalYAML e0 input = (e', None))
  /\ Endpoint.MarshalYAML (Endpoint.mk None) = Panic NilDereference.
Proof.
  unfold Endpoint.UnmarshalYAML. intros H.
  split; [|split; [|reflexivity]].
  - intros Herr. destruct input as [s | x].
    + destruct (Parse s) as [u | perr]; injection H as <- <-; congruence.
    + now injection H as <- <-.
  - intros ->. destruct input as [s | x]; [|discriminate].
    destruct (Parse s) as [u | perr]; [|discriminate].
    injection H as <-. cbn.
    split; [discriminate|]. split; [apply returns_Return | reflexivity].
Qed.

(** X11 at a string that parses and at one that does not. *)
Lemma X11_UnmarshalYAML_all_or_nothing_witness :
  let old := Endpoint.mk (Some TestValidate.endpointURL) in
  (exists e', @Endpoint.UnmarshalYAML unit old (inl "https://10.0.0.1:443")
              = (e', None)
              /\ returns (Endpoint.MarshalYAML e'))
  /\ fst (@Endpoint.UnmarshalYAML unit old (inl "https://[::1")) = old.
Proof.
  intros old. split.
  - destruct (@Endpoint.UnmarshalYAML unit old (inl "https://10.0.0.1:443"))
      as [e' err] eqn:Hu.
    pose proof (X11_UnmarshalYAML_all_or_nothing old e' _ err Hu) as (_ & Hok & _).
    assert (Herr : err = None) by (vm_compute in Hu; congruence).
    subst err. exists e'. split; [reflexivity | apply Hok; reflexivity].
  - destruct (@Endpoint.UnmarshalYAML unit old (inl "https://[::1"))
      as [e' err] eqn:Hu.
    pose proof (X11_UnmarshalYAML_all_or_nothing old e' _ err Hu) as (Hbad & _).
    apply Hbad. vm_compute in Hu. congruence.
Defined.

(** X14: an endpoint string with an ASCII control byte (a newline, a tab,
    DEL, ...) before its first [#] is rejected: [UnmarshalYAML] returns
    the parse error [net/url: invalid control character in URL] and
    leaves the endpoint as it was. *)
Theorem X14_control_byte_rejected {E : Type} (e : Endpoint.t) (s : string) :
  stringContainsCTLByte (fst (split s "#" true)) = true ->
  @Endpoint.UnmarshalYAML E e (inl s)
  = (e, Some (Endpoint.ParseError
                (mkError "parse" (fst (split s "#" true))
                   (errorString "net/url: invalid control character in URL")))).
Proof.
  intros Hctl. unfold Endpoint.UnmarshalYAML, Parse.
  destruct (split s "#" true) as [u frag]. cbn [fst] in Hctl.
  unfold parse. now rewrite Hctl.
Qed.

(** X14 at an endpoint with a trailing newline. *)
Lemma X14_control_byte_rejected_witness :
  let s := "https://localhost:6443" +:+ String "010" "" in
  @Endpoint.UnmarshalYAML unit (Endpoint.mk None) (inl s)
  = (Endpoint.mk None,
     Some (Endpoint.ParseError
             (mkError "parse" s
                (errorString "net/url: invalid control character in URL")))).
Proof.
  intros s.
  exact (@X14_control_byte_rejected unit (Endpoint.mk None) s eq_refl).
Defined.

Lemma lower_byte_not_upper (c : ascii) : negb (is_upper (lower_byte c)) = true.
Proof. every_byte c. Qed.

Lemma ToLower_no_upper (s : string) :
  all (fun c => negb (is_upper c)) (ToLower s) = true.
Proof.
  induction s as [|c s IH]; [reflexivity|].
  cbn [ToLower all]. now rewrite lower_byte_not_upper, IH.
Qed.

(** Every URL that [parse] returns has its scheme in lower case. *)
Lemma parse_Scheme_lower (rawurl : string) (viaRequest : bool) (u : URL) :
  parse rawurl viaRequest = Ok u ->
  all (fun c => negb (is_upper c)) (Scheme u) = true.
Proof.
  unfold parse.
  destruct (stringContainsCTLByte rawurl); [discriminate|].
  destruct (String.eqb rawurl "" && viaRequest); [discriminate|].
  destruct (String.eqb rawurl "*"); [intros H; now injection H as <-|].
  destruct (getscheme rawurl) as [[scheme0 rest0]|]; [|discriminate].
  assert (Hrest : forall rest1 fq rq,
    (if negb (HasPrefix rest1 "/") && negb (String.eqb (ToLower scheme0) "")
     then Ok (mkURL (ToLower scheme0) rest1 None "" "" "" fq rq "")
     else if negb (HasPrefix rest1 "/") && viaRequest
     then Err (errorString "invalid URI for request")
     else if negb (HasPrefix rest1 "/")
             && (let colon := IndexByte rest1 ":" in
                 let slash := IndexByte rest1 "/" in
                 (0 <=? colon) && ((slash <? 0) || (colon <? slash)))
     then Err (errorString "first path segment in URL cannot contain colon")
     else
       let authority_step :=
         if (negb (String.eqb (ToLower scheme0) "")
             || (negb viaRequest && negb (HasPrefix rest1 "///")))
            && HasPrefix rest1 "//"
         then
           let '(authority, rest2) := split (slice_from rest1 2) "/" false in
           match parseAuthority authority with
           | Err e => Err e
           | Ok (user, host) => Ok (user, host, rest2)
           end
         else Ok (None, EmptyString, rest1) in
       match authority_step with
       | Err e => Err e
       | Ok (user, host, rest2) =>
           match setPath rest2 with
           | Err e => Err e
           | Ok (path, rawPath) =>
               Ok (mkURL (ToLower scheme0) "" user host path rawPath fq rq "")
           end
       end) = Ok u ->
    all (fun c => negb (is_upper c)) (Scheme u) = true).
  { intros rest1 fq rq.
    destruct (negb (HasPrefix rest1 "/") && negb (String.eqb (ToLower scheme0) ""));
      [intros H; injection H as <-; apply ToLower_no_upper|].
    destruct (negb (HasPrefix rest1 "/") && viaRequest); [discriminate|].
    match goal with
    | |- context [if ?b then Err _ else _] => destruct b; [discriminate|]
    end.
    cbv zeta.
    match goal with
    | |- context [match ?X with Ok _ => _ | Err _ => _ end] =>
        destruct X as [[[user host] rest2]|]; [|discriminate]
    end.
    destruct (setPath rest2) as [[path rawPath]|]; [|discriminate].
    intros H. injection H as <-. apply ToLower_no_upper. }
  destruct (HasSuffix rest0 "?" && (CountByte rest0 "?" =? 1)).
  - apply Hrest.
  - destruct (split rest0 "?" true) as [r q]. apply Hrest.
Qed.

(** X12: after a successful [UnmarshalYAML] the scheme of the endpoint's
    URL holds no upper-case letter, however the string spelled it, so
    comparing it with a lower-case literal is safe. *)
Theorem X12_scheme_lower_case {E : Type} (e e' : Endpoint.t) (s : string) :
  @Endpoint.UnmarshalYAML E e (inl s) = (e', None) ->
  exists u, Endpoint.URL e' = Some u
            /\ all (fun c => negb (is_upper c)) (Scheme u) = true.
Proof.
  unfold Endpoint.UnmarshalYAML, Parse.
  destruct (split s "#" true) as [raw frag].
  destruct (parse raw false) as [u|] eqn:Hp; [|discriminate].
  apply parse_Scheme_lower in Hp.
  destruct (String.eqb frag "").
  - intros H. injection H as <-. now exists u.
  - destruct (unescape frag encodeFragment) as [f|]; [|discriminate].
    intros H. injection H as <-. eexists. split; [reflexivity | exact Hp].
Qed.

(** X12 at a scheme written in upper case. *)
Lemma X12_scheme_lower_case_witness :
  exists u,
    fst (@Endpoint.UnmarshalYAML unit (Endpoint.mk None)
           (inl "HTTPS://Kube.Example.com:6443")) = Endpoint.mk (Some u)
    /\ all (fun c => negb (is_upper c)) (Scheme u) = true.
Proof.
  destruct (@X12_scheme_lower_case unit (Endpoint.mk None)
              (fst (@Endpoint.UnmarshalYAML unit (Endpoint.mk None)
                      (inl "HTTPS://Kube.Example.com:6443")))
              "HTTPS://Kube.Example.com:6443" eq_refl) as (u & Hu & Hl).
  exists u. split; [|exact Hl].
  cbn in Hu |- *. now rewrite <- Hu.
Defined.

(** [parse] on a rooted path: no scheme, no authority, no query. *)
Lemma parse_rooted_path (path : string) :
  absolute_url.path_ok path = true ->
  HasPrefix path "//" = false ->
  parse path false = Ok (mkURL "" "" None "" path "" false "" "").
Proof.
  intros Hp Hdd. pose proof (path_bytes path Hp) as Hb.
  assert (Hstar : String.eqb path "*" = false).
  { destruct (path_shape path Hp) as [-> | (t & ->)]; reflexivity. }
  assert (Hsch : getscheme path = Ok (EmptyString, path)).
  { destruct (path_shape path Hp) as [-> | (t & ->)]; reflexivity. }
  assert (Hq : CountByte path "?" = 0).
  { now apply (CountByte_excluded absolute_url.path_byte). }
  assert (Hcolon : negb (HasPrefix path "/")
                   && (let colon := IndexByte path ":" in
                       let slash := IndexByte path "/" in
                       (0 <=? colon) && ((slash <? 0) || (colon <? slash)))
                   = false).
  { destruct (path_shape path Hp) as [-> | (t & ->)]; reflexivity. }
  unfold parse.
  rewrite (no_CTL_byte path (all_impl _ _ _ path_byte_url_byte Hb)).
  rewrite andb_false_r, Hstar, Hsch. cbn [ToLower].
  rewrite Hq. change (0 =? 1) with false. rewrite andb_false_r.
  unfold split at 1. rewrite (proj2 (IndexByte_absent path "?") Hq).
  change (-1 <? 0) with true. cbv iota beta.
  change (String.eqb "" "") with true. cbn [negb orb andb].
  cbv zeta in Hcolon.
  rewrite !andb_false_r, Hcolon, Hdd. rewrite andb_false_r.
  cbv zeta iota beta. now rewrite (setPath_unreserved path Hp).
Qed.

(** X13: [UnmarshalYAML] asks for neither a scheme nor a host: the empty
    string and every rooted path of unreserved characters (one that does
    not begin with two slashes) is accepted, gives an endpoint whose URL
    has an empty scheme and an empty host, and is marshalled back
    unchanged. *)
Theorem X13_relative_reference_accepted {E : Type} (e : Endpoint.t) (path : string) :
  absolute_url.path_ok path = true ->
  HasPrefix path "//" = false ->
  let u := mkURL "" "" None "" path "" false "" "" in
  @Endpoint.UnmarshalYAML E e (inl path) = (Endpoint.mk (Some u), None)
  /\ Endpoint.MarshalYAML (Endpoint.mk (Some u)) = Return path.
Proof.
  intros Hp Hdd u. pose proof (path_bytes path Hp) as Hb.
  assert (Hhash : IndexByte path "#" = -1).
  { now apply (IndexByte_excluded absolute_url.path_byte). }
  assert (Hcolon : IndexByte path ":" = -1).
  { now apply (IndexByte_excluded absolute_url.path_byte). }
  split.
  - unfold Endpoint.UnmarshalYAML, Parse, split. rewrite Hhash.
    change (-1 <? 0) with true. cbv iota beta.
    now rewrite (parse_rooted_path path Hp Hdd).
  - unfold Endpoint.MarshalYAML, u. cbn [Endpoint.URL deref bind].
    unfold URL_String.
    rewrite (EscapedPath_unreserved "" "" path "" "" false Hp).
    cbn [Scheme Opaque User Host Path ForceQuery RawQuery Fragment is_Some_b].
    change (String.eqb "" "") with true. cbn [negb orb andb].
    rewrite andb_false_r. change (len "" =? 0) with true. cbv iota.
    rewrite Hcolon. reflexivity.
Qed.

(** X13 at the empty string and at the manifest path of the tests. *)
Lemma X13_relative_reference_accepted_witness :
  (exists u, @Endpoint.UnmarshalYAML unit (Endpoint.mk None) (inl "")
             = (Endpoint.mk (Some u), None)
             /\ Scheme u = "" /\ Host u = ""
             /\ Endpoint.MarshalYAML (Endpoint.mk (Some u)) = Return "")
  /\ (exists u, @Endpoint.UnmarshalYAML unit (Endpoint.mk None) (inl "/manifest.yaml")
                = (Endpoint.mk (Some u), None)
                /\ Scheme u = "" /\ Host u = ""
                /\ Endpoint.MarshalYAML (Endpoint.mk (Some u))
                   = Return "/manifest.yaml").
Proof.
  split.
  - destruct (@X13_relative_reference_accepted unit (Endpoint.mk None) ""
                eq_refl eq_refl) as [Hu Hm].
    eexists. split; [exact Hu|]. split; [reflexivity|]. split; [reflexivity|].
    exact Hm.
  - destruct (@X13_relative_reference_accepted unit (Endpoint.mk None)
                "/manifest.yaml" eq_refl eq_refl) as [Hu Hm].
    eexists. split; [exact Hu|]. split; [reflexivity|]. split; [reflexivity|].
    exact Hm.
Defined.

(** ** Escaping and unescaping *)

(** The two hex digits [escape] writes for a byte are read back by
    [unescape] as that byte. *)
Lemma hex_digits_read_back (c : ascii) :
  ishex (upperhex (Z.shiftr (code c) 4)) = true
  /\ ishex (upperhex (Z.land (code c) 15)) = true
  /\ byte_of (Z.lor (Z.shiftl (unhex (upperhex (Z.shiftr (code c) 4))) 4)
                    (unhex (upperhex (Z.land (code c) 15)))) = c.
Proof. every_byte c. Qed.

Lemma shouldEscape_percent (mode : encoding) : shouldEscape "%" mode = true.
Proof. now destruct mode. Qed.

Lemma unescaped_plus_not_query (mode : encoding) :
  shouldEscape "+" mode = false -> encoding_eqb mode encodeQueryComponent = false.
Proof. now destruct mode. Qed.

Lemma space_in_query (c : ascii) (mode : encoding) :
  Ascii.eqb c " " && encoding_eqb mode encodeQueryComponent = true ->
  c = " "%char /\ encoding_eqb mode encodeQueryComponent = true
  /\ shouldEscape c mode = true.
Proof.
  intros H. apply andb_prop in H as [Hc Hm]. apply Ascii.eqb_eq in Hc. subst c.
  split; [reflexivity|]. split; [exact Hm|]. now destruct mode.
Qed.

Lemma unescape_scan_plus (x : string) (mode : encoding) (n : Z) (hp : bool) :
  unescape_scan (String "+" x) mode n hp
  = unescape_scan x mode n (encoding_eqb mode encodeQueryComponent).
Proof. reflexivity. Qed.

Lemma unescape_scan_escaped (a b : ascii) (x : string) (mode : encoding)
  (n : Z) (hp : bool) :
  is_host_mode mode = false -> ishex a = true -> ishex b = true ->
  unescape_scan (String "%" (String a (String b x))) mode n hp
  = unescape_scan x mode (n + 1) hp.
Proof.
  intros Hm Ha Hb. cbn [unescape_scan]. change (Ascii.eqb "%" "%") with true.
  cbv iota. rewrite Ha, Hb. cbn [negb orb].
  destruct mode; try discriminate Hm; reflexivity.
Qed.

Lemma unescape_scan_other (c : ascii) (x : string) (mode : encoding)
  (n : Z) (hp : bool) :
  is_host_mode mode = false ->
  Ascii.eqb c "%" = false -> Ascii.eqb c "+" = false ->
  unescape_scan (String c x) mode n hp = unescape_scan x mode n hp.
Proof. intros Hm Hp Hq. cbn [unescape_scan]. now rewrite Hp, Hq, Hm. Qed.

Lemma unescaped_not_percent (c : ascii) (mode : encoding) :
  shouldEscape c mode = false -> Ascii.eqb c "%" = false.
Proof.
  intros Hc. destruct (Ascii.eqb_spec c "%") as [-> | _]; [|reflexivity].
  now rewrite shouldEscape_percent in Hc.
Qed.

(** What [escape] counts: when nothing needs escaping, the built string
    is the string itself. *)
Lemma escape_count_zero (mode : encoding) (s : string) :
  0 <= fst (escape_count s mode) /\ 0 <= snd (escape_count s mode)
  /\ (fst (escape_count s mode) = 0 -> snd (escape_count s mode) = 0 ->
      escape_build s mode = s).
Proof.
  induction s as [|c s IH]; [cbn; repeat split; lia|].
  cbn [escape_count escape_build].
  destruct (escape_count s mode) as [sp hx]. cbn [fst snd] in IH.
  destruct IH as (Hsp & Hhx & Hsame).
  destruct (shouldEscape c mode) eqn:Hc.
  - destruct (Ascii.eqb c " " && encoding_eqb mode encodeQueryComponent);
      cbn [fst snd]; repeat split; lia.
  - cbn [fst snd].
    destruct (Ascii.eqb c " " && encoding_eqb mode encodeQueryComponent) eqn:Hq.
    + apply space_in_query in Hq as (_ & _ & Hq). congruence.
    + repeat split; try lia. intros H1 H2. now rewrite Hsame.
Qed.

Lemma escape_is_build (s : string) (mode : encoding) :
  escape s mode = escape_build s mode.
Proof.
  unfold escape. destruct (escape_count_zero mode s) as (_ & _ & Hsame).
  destruct (escape_count s mode) as [sp hx]. cbn [fst snd] in Hsame.
  destruct ((sp =? 0) && (hx =? 0)) eqn:E; [|reflexivity].
  apply andb_prop in E as [E1 E2]. apply Z.eqb_eq in E1, E2.
  symmetry. now apply Hsame.
Qed.

Lemma unescape_decode_build (mode : encoding) (s : string) :
  unescape_decode (escape_build s mode) mode = s.
Proof.
  induction s as [|c s IH]; [reflexivity|].
  cbn [escape_build].
  destruct (Ascii.eqb c " " && encoding_eqb mode encodeQueryComponent) eqn:Hq.
  - apply space_in_query in Hq as (-> & Hm & _).
    change (unescape_decode (String "+" (escape_build s mode)) mode)
      with (String (if encoding_eqb mode encodeQueryComponent then " " else "+")%char
                   (unescape_decode (escape_build s mode) mode)).
    now rewrite Hm, IH.
  - destruct (shouldEscape c mode) eqn:Hc.
    + destruct (hex_digits_read_back c) as (_ & _ & Hb).
      cbn [unescape_decode]. change (Ascii.eqb "%" "%") with true. cbv iota.
      now rewrite Hb, IH.
    + cbn [unescape_decode]. rewrite (unescaped_not_percent c mode Hc).
      destruct (Ascii.eqb_spec c "+") as [-> | _]; [|now rewrite IH].
      now rewrite (unescaped_plus_not_query mode Hc), IH.
Qed.

Lemma unescape_scan_build (mode : encoding) (s : string) :
  is_host_mode mode = false ->
  forall (n : Z) (hp : bool),
  exists n' hp',
    unescape_scan (escape_build s mode) mode n hp = Ok (n', hp')
    /\ n <= n'
    /\ (hp = true -> encoding_eqb mode encodeQueryComponent = true -> hp' = true)
    /\ (n' = n -> hp' = false -> escape_build s mode = s).
Proof.
  intros Hm. induction s as [|c s IH]; intros n hp.
  - exists n, hp. cbn. repeat split; auto; lia.
  - cbn [escape_build].
    destruct (Ascii.eqb c " " && encoding_eqb mode encodeQueryComponent) eqn:Hq.
    + apply space_in_query in Hq as (-> & Hmq & _).
      rewrite unescape_scan_plus, Hmq.
      destruct (IH n true) as (n' & hp' & Hs & Hle & Hkeep & _).
      exists n', hp'. rewrite Hs. split; [reflexivity|]. split; [exact Hle|].
      split; [auto|]. intros _ Hf. rewrite (Hkeep eq_refl Hmq) in Hf. discriminate.
    + destruct (shouldEscape c mode) eqn:Hc.
      * destruct (hex_digits_read_back c) as (Hhi & Hlo & _).
        rewrite (unescape_scan_escaped _ _ _ mode n hp Hm Hhi Hlo).
        destruct (IH (n + 1) hp) as (n' & hp' & Hs & Hle & Hkeep & _).
        exists n', hp'. rewrite Hs. split; [reflexivity|]. split; [lia|].
        split; [exact Hkeep | intros; lia].
      * pose proof (unescaped_not_percent c mode Hc) as Hpct.
        destruct (Ascii.eqb_spec c "+") as [-> | Hplus].
        -- rewrite unescape_scan_plus.
           pose proof (unescaped_plus_not_query mode Hc) as Hnq. rewrite Hnq.
           destruct (IH n false) as (n' & hp' & Hs & Hle & _ & Hsame).
           exists n', hp'. rewrite Hs. split; [reflexivity|]. split; [exact Hle|].
           split; [congruence|]. intros H1 H2. now rewrite (Hsame H1 H2).
        -- apply Ascii.eqb_neq in Hplus.
           rewrite (unescape_scan_other c _ mode n hp Hm Hpct Hplus).
           destruct (IH n hp) as (n' & hp' & Hs & Hle & Hkeep & Hsame).
           exists n', hp'. rewrite Hs. split; [reflexivity|]. split; [exact Hle|].
           split; [exact Hkeep|]. intros H1 H2. now rewrite (Hsame H1 H2).
Qed.

(** X15: outside a host, [unescape] undoes [escape]: for the path, path
    segment, userinfo, query component and fragment encodings,
    unescaping an escaped string succeeds and gives the string back,
    whatever bytes it holds.  In a host it does not: an escaped space is
    rejected. *)
Theorem X15_unescape_escape (mode : encoding) (s : string) :
  is_host_mode mode = false ->
  unescape (escape s mode) mode = Ok s
  /\ unescape (escape " " encodeHost) encodeHost = Err (EscapeError "%20").
Proof.
  intros Hm. split; [|reflexivity].
  rewrite escape_is_build. unfold unescape.
  destruct (unescape_scan_build mode s Hm 0 false)
    as (n' & hp' & Hs & Hle & _ & Hsame).
  rewrite Hs. destruct ((n' =? 0) && negb hp') eqn:E.
  - apply andb_prop in E as [E1 E2]. apply Z.eqb_eq in E1.
    apply negb_true_iff in E2. now rewrite (Hsame E1 E2).
  - now rewrite unescape_decode_build.
Qed.

(** X15 at a path with a space, a percent sign and a question mark, and
    at a query component with a space and a plus sign. *)
Lemma X15_unescape_escape_witness :
  escape "/a b%c?" encodePath = "/a%20b%25c%3F"
  /\ unescape (escape "/a b%c?" encodePath) encodePath = Ok "/a b%c?"
  /\ escape "a b+c" encodeQueryComponent = "a+b%2Bc"
  /\ unescape (escape "a b+c" encodeQueryComponent) encodeQueryComponent
     = Ok "a b+c".
Proof.
  split; [reflexivity|]. split.
  - apply (X15_unescape_escape encodePath "/a b%c?" eq_refl).
  - split; [reflexivity|].
    apply (X15_unescape_escape encodeQueryComponent "a b+c" eq_refl).
Defined.

(** ** What [MarshalYAML] writes, [UnmarshalYAML] reads back *)

Lemma lower_byte_letter (c : ascii) :
  is_lower c || is_upper c = true ->
  is_lower (lower_byte c) || is_upper (lower_byte c) = true.
Proof. every_byte c. Qed.

Lemma lower_byte_scheme_tail (c : ascii) :
  absolute_url.scheme_tail c = true ->
  absolute_url.scheme_tail (lower_byte c) = true.
Proof. every_byte c. Qed.

Lemma ToLower_scheme_ok (sch : string) :
  absolute_url.scheme_ok sch = true -> absolute_url.scheme_ok (ToLower sch) = true.
Proof.
  destruct sch as [|c t]; [discriminate|].
  cbn [absolute_url.scheme_ok ToLower]. intros H. apply andb_prop in H as [Hc Ht].
  rewrite (lower_byte_letter c Hc). cbn [andb].
  induction t as [|d t IH]; [reflexivity|].
  cbn [all ToLower] in *. apply andb_prop in Ht as [Hd Ht].
  now rewrite (lower_byte_scheme_tail d Hd), (IH Ht).
Qed.

Lemma ToLower_idempotent (s : string) : ToLower (ToLower s) = ToLower s.
Proof. apply ToLower_lower, ToLower_no_upper. Qed.

(** X16: on the plain absolute URLs, what [MarshalYAML] writes is a fixed
    point: unmarshalling a string and marshalling the endpoint gives a
    string that [UnmarshalYAML] accepts again and that [MarshalYAML]
    then writes unchanged. *)
Theorem X16_marshalled_form_is_stable {E : Type} (e : Endpoint.t)
  (p : absolute_url.parts) :
  absolute_url.well_formed p = true ->
  exists u written u',
    @Endpoint.UnmarshalYAML E e (inl (absolute_url.render p))
    = (Endpoint.mk (Some u), None)
    /\ Endpoint.MarshalYAML (Endpoint.mk (Some u)) = Return written
    /\ @Endpoint.UnmarshalYAML E (Endpoint.mk (Some u)) (inl written)
       = (Endpoint.mk (Some u'), None)
    /\ Endpoint.MarshalYAML (Endpoint.mk (Some u')) = Return written.
Proof.
  intros Hwf.
  set (p' := absolute_url.mkParts (ToLower (absolute_url.scheme p))
               (absolute_url.host p) (absolute_url.port p) (absolute_url.path p)
               (absolute_url.query p) (absolute_url.fragment p)).
  assert (Hwf' : absolute_url.well_formed p' = true).
  { destruct (well_formed_parts p Hwf) as (Hs & Hh & Hpo & Hpa & Hq & Hf).
    unfold absolute_url.well_formed, p'.
    cbn [absolute_url.scheme absolute_url.host absolute_url.port
         absolute_url.path absolute_url.query absolute_url.fragment].
    now rewrite (ToLower_scheme_ok _ Hs), Hh, Hpo, Hpa, Hq, Hf. }
  assert (Hcanon : absolute_url.canonical p' = absolute_url.render p').
  { unfold absolute_url.canonical, p'.
    cbn [absolute_url.scheme absolute_url.host absolute_url.port
         absolute_url.path absolute_url.query absolute_url.fragment].
    now rewrite ToLower_idempotent. }
  destruct (Parse_String_plain p Hwf) as (u & Hparse & Hstr).
  destruct (Parse_String_plain p' Hwf') as (u' & Hparse' & Hstr').
  exists u, (absolute_url.render p'), u'.
  unfold Endpoint.UnmarshalYAML, Endpoint.MarshalYAML.
  rewrite Hparse, Hparse'. cbn [Endpoint.URL deref bind].
  rewrite Hstr, Hstr', Hcanon. repeat split.
Qed.

(** X16 at an endpoint whose scheme is written in upper case. *)
Lemma X16_marshalled_form_is_stable_witness :
  exists u written u',
    @Endpoint.UnmarshalYAML unit (Endpoint.mk None) (inl "HTTPS://localhost:6443/")
    = (Endpoint.mk (Some u), None)
    /\ Endpoint.MarshalYAML (Endpoint.mk (Some u)) = Return written
    /\ @Endpoint.UnmarshalYAML unit (Endpoint.mk (Some u)) (inl written)
       = (Endpoint.mk (Some u'), None)
    /\ Endpoint.MarshalYAML (Endpoint.mk (Some u')) = Return written.
Proof.
  exact (@X16_marshalled_form_is_stable unit (Endpoint.mk None)
           (absolute_url.mkParts "HTTPS" "localhost" (Some "6443") "/" None None)
           eq_refl).
Defined.

End EndpointFacts.
